(** * k6 load-test scripts of rust-api: coverage tracking, dispatch, reports

    A shallow embedding of the three k6 scripts of the repository

      - the comprehensive script with endpoint coverage (module [Coverage]),
      - [k6-performance-test.js], the basic script (module [Basic]),
      - [k6-mqtt-pub-test.js], the MQTT publish script (module [Mqtt]),

    and the properties their specification states about them.

    Modelling conventions.

      - One JavaScript realm is modelled: the module-level objects of a script
        ([endpointCoverage], the custom metrics) are fields of a state record
        that every function takes and returns.
      - Counters and millisecond clock differences are integers ([Z]).  A
        JavaScript Number represents every integer below 2^53 exactly, so
        [x++] and [+=] are exact integer operations in that range, which is
        the range the model covers.
      - Other Numbers (durations, percentiles, ratios, draws) are rationals
        extended with NaN and the two infinities (type [Js.Num]).  The
        results of [+], [-], [*], [/] and the values of decimal literals are
        rounded as IEEE 754 binary64 prescribes: to the nearest double, the
        one with an even significand on a tie, with gradual underflow and
        overflow to an infinity ([Js.round64]).  Comparisons are exact.  The
        index [Math.floor(r * n)] of a random choice is an integer, taken
        from the exact product.
      - The network and [Math.random] are oracles stored in the state: a
        script reads the next reply, or the next draw, from them.
      - An object used as a table is a finite map ([gmap]); the order in
        which JavaScript enumerates its keys is not modelled.
      - Dates are kept as the clock readings they render.
      - [console.log] has no effect on any modelled state and is left out. *)

From Stdlib Require Import ZArith QArith Qabs Qround Qpower Lia Lqa String.
From Stdlib Require Import SpecFloat.
From stdpp Require Import gmap strings list fin_maps pretty.

Local Open Scope Z_scope.
Local Open Scope string_scope.

(** ** Coverage entries *)

(** [{ hits: 0, success: 0, errors: 0, totalResponseTime: 0 }] *)
Record Entry : Type := mkEntry {
  hits : Z;
  success : Z;
  errors : Z;
  totalResponseTime : Z
}.

Definition entry0 : Entry := mkEntry 0 0 0 0.

(** [e.hits++] *)
Definition incr_hits (e : Entry) : Entry :=
  mkEntry (hits e + 1) (success e) (errors e) (totalResponseTime e).

(** [e.totalResponseTime += responseTime] *)
Definition add_totalResponseTime (responseTime : Z) (e : Entry) : Entry :=
  mkEntry (hits e) (success e) (errors e) (totalResponseTime e + responseTime).

(** [e.success++] *)
Definition incr_success (e : Entry) : Entry :=
  mkEntry (hits e) (success e + 1) (errors e) (totalResponseTime e).

(** [e.errors++] *)
Definition incr_errors (e : Entry) : Entry :=
  mkEntry (hits e) (success e) (errors e + 1) (totalResponseTime e).

(** The entry invariant of the data model. *)
Definition entry_ok (e : Entry) : Prop :=
  hits e = success e + errors e /\
  0 <= hits e /\ 0 <= success e /\ 0 <= errors e /\ 0 <= totalResponseTime e.

(** The properties every plain object inherits from [Object.prototype].  A
    lookup [obj[key]] that finds no own property continues there, and each of
    these resolves to a function or an object, hence to a truthy value. *)
Definition Object_prototype_keys : list string :=
  [ "constructor"; "toString"; "toLocaleString"; "valueOf"; "hasOwnProperty";
    "isPrototypeOf"; "propertyIsEnumerable"; "__proto__";
    "__defineGetter__"; "__defineSetter__"; "__lookupGetter__";
    "__lookupSetter__" ].

Definition inherited (key : string) : bool :=
  bool_decide (key ∈ Object_prototype_keys).

(** ** JavaScript Numbers and their formatting *)

Module Js.

(** A Number: a rational, NaN, [Infinity] or [-Infinity].  The sign of
    zero is not modelled. *)
Inductive Num : Type :=
| Fin (q : Q)
| NaN
| PInf
| NInf.

Definition Qltb (x y : Q) : bool := negb (Qle_bool y x).

Definition of_Z (z : Z) : Num := Fin (inject_Z z).

(** [ToNumber(v)] for a value that is a Number or [undefined]. *)
Definition of_undef (v : option Num) : Num :=
  match v with
  | Some n => n
  | None => NaN
  end.

(** [ToBoolean(n)]: zero and NaN are falsy. *)
Definition truthy (n : Num) : bool :=
  match n with
  | Fin q => negb (Qeq_bool q 0)
  | NaN => false
  | PInf | NInf => true
  end.

(** [v || 0] for a value that is a Number or [undefined]. *)
Definition or0 (v : option Num) : Num :=
  match v with
  | Some n => if truthy n then n else Fin 0
  | None => Fin 0
  end.

(** [a < b]: false as soon as one side is NaN. *)
Definition lt (a b : Num) : bool :=
  match a, b with
  | NaN, _ | _, NaN => false
  | Fin x, Fin y => Qltb x y
  | NInf, NInf => false
  | NInf, _ => true
  | _, NInf => false
  | PInf, _ => false
  | Fin _, PInf => true
  end.

(** [a > b] *)
Definition gt (a b : Num) : bool := lt b a.

(** The sign of a non-NaN Number: true when negative. *)
Definition negative (a : Num) : bool :=
  match a with
  | Fin x => Qltb x 0
  | NInf => true
  | _ => false
  end.

Definition is_zero (a : Num) : bool :=
  match a with
  | Fin x => Qeq_bool x 0
  | _ => false
  end.

Definition inf_of_sign (neg : bool) : Num := if neg then NInf else PInf.

(** [2^e] *)
Definition pow2 (e : Z) : Q := (2 ^ e)%Q.

(** The exponent [e] with [2^(e-1) <= |q| < 2^e], for [q] not zero. *)
Definition mag (q : Q) : Z :=
  let d := Z.log2 (Z.abs (Qnum q)) - Z.log2 (Z.pos (Qden q)) in
  if Qle_bool (pow2 d) (Qabs q) then d + 1 else d.

(** The exponent of the unit in the last place of the doubles next to
    [q]: a double has a significand of 53 bits, and no exponent below
    -1074, the one of the subnormal doubles. *)
Definition ulp_exp (q : Q) : Z := Z.max (mag q - 53) (-1074).

(** The integer nearest to [q], the even one on a tie. *)
Definition nearest_even (q : Q) : Z :=
  let f := Qfloor q in
  match (q - inject_Z f ?= 1 # 2)%Q with
  | Lt => f
  | Gt => f + 1
  | Eq => if Z.even f then f else f + 1
  end.

(** The double nearest to [q], the one with an even significand on a tie,
    as if the exponent had no upper bound. *)
Definition round (q : Q) : Q :=
  if Qeq_bool q 0 then 0%Q
  else
    Qred (inject_Z (nearest_even (q / pow2 (ulp_exp q))) * pow2 (ulp_exp q)).

(** The Number an operation returns for the exact result [q]: the nearest
    double, or an infinity when that is [2^1024] or more in absolute
    value. *)
Definition round64 (q : Q) : Num :=
  let v := round q in
  if Qle_bool (pow2 1024) (Qabs v) then inf_of_sign (Qltb v 0) else Fin v.

(** The value of the decimal literal that writes [q] (below [2^1024]). *)
Definition literal (q : Q) : Q := round q.

(** [a + b] *)
Definition add (a b : Num) : Num :=
  match a, b with
  | NaN, _ | _, NaN => NaN
  | Fin x, Fin y => round64 (x + y)
  | PInf, NInf | NInf, PInf => NaN
  | PInf, _ | _, PInf => PInf
  | NInf, _ | _, NInf => NInf
  end.

(** [a - b] *)
Definition sub (a b : Num) : Num :=
  match a, b with
  | NaN, _ | _, NaN => NaN
  | Fin x, Fin y => round64 (x - y)
  | PInf, PInf | NInf, NInf => NaN
  | PInf, _ | _, NInf => PInf
  | NInf, _ | _, PInf => NInf
  end.

(** [a * b] *)
Definition mul (a b : Num) : Num :=
  match a, b with
  | NaN, _ | _, NaN => NaN
  | Fin x, Fin y => round64 (x * y)
  | _, _ =>
      if is_zero a || is_zero b then NaN
      else inf_of_sign (xorb (negative a) (negative b))
  end.

(** [a / b] *)
Definition div (a b : Num) : Num :=
  match a, b with
  | NaN, _ | _, NaN => NaN
  | Fin x, Fin y =>
      if Qeq_bool y 0 then
        if Qeq_bool x 0 then NaN else inf_of_sign (Qltb x 0)
      else round64 (x / y)
  | Fin _, _ => Fin 0
  | _, Fin _ => inf_of_sign (xorb (negative a) (negative b))
  | _, _ => NaN
  end.

(** The integer [n] for which [n / 100] is closest to [q], the larger one
    on a tie; [q] is not negative. *)
Definition hundredths (q : Q) : Z :=
  (2 * 100 * Qnum q + Z.pos (Qden q)) / (2 * Z.pos (Qden q)).

Definition two_digits (n : Z) : string :=
  if (n <? 10)%Z then "0" ++ pretty n else pretty n.

(** The digits [toFixed(2)] prints for the absolute value. *)
Definition fixed2_abs (q : Q) : string :=
  let n := hundredths q in
  pretty (n / 100) ++ "." ++ two_digits (n mod 100).

(** [n.toFixed(2)], for Numbers below 10^21 in absolute value (above,
    JavaScript switches to the exponential notation). *)
Definition toFixed2 (n : Num) : string :=
  match n with
  | Fin q => if Qltb q 0 then "-" ++ fixed2_abs (Qabs q) else fixed2_abs q
  | NaN => "NaN"
  | PInf => "Infinity"
  | NInf => "-Infinity"
  end.

(** The number a [toFixed(2)] rendering denotes. *)
Definition fixed2_value (n : Num) : Num :=
  match n with
  | Fin q =>
      if Qltb q 0 then Fin (Qred (- (hundredths (Qabs q) # 100)))
      else Fin (Qred (hundredths q # 100))
  | _ => n
  end.

(** A field of a report that holds either a string or a Number, as in
    [x?.toFixed(2) || 0]. *)
Inductive Field : Type :=
| FStr (s : string)
| FNum (n : Num).

End Js.

Arguments Js.round : simpl never.
Arguments Js.round64 : simpl never.
Arguments Js.literal : simpl never.

(** ** The environment of a script: network, clock, random source *)

(** What a script reads of an HTTP response: [r.status], [r.body] ([None] is
    [null]) and [r.timings.duration] in milliseconds. *)
Record Response : Type := mkResponse {
  status : Z;
  body : option string;
  duration : Q
}.

(** The [message] of an MQTT test message: a text, or the JSON of a reading
    stamped with the clock. *)
Inductive MqttBody : Type :=
| Text (s : string)
| Temperature (timestamp : Z)
| Alert (timestamp : Z).

(** The object a request body is the [JSON.stringify] of. *)
Inductive Payload : Type :=
| UserData (name email : string)
| MessageData (message priority : string)
| MqttMessage (topic : string) (message : MqttBody) (qos : Z)
| ChannelData (user_id : Z) (suffix : option Q).

Record Request : Type := mkRequest {
  method : string;
  url : string;
  payload : option Payload;
  tag : option string
}.

Record World : Type := mkWorld {
  net : list Response;   (* the replies to the coming requests *)
  clock : list Z;        (* the coming readings of the clock, in ms *)
  random : list Q;       (* the coming values of [Math.random()] *)
  sent : list Request;   (* the requests issued so far, oldest first *)
  slept : list Js.Num    (* the pauses taken so far, in seconds *)
}.

(** The reply k6 hands back when no connection could be made. *)
Definition no_reply : Response := mkResponse 0 None 0.

(** [http.get] and [http.post]: the request goes out, the next reply comes
    back. *)
Definition http_request (req : Request) (w : World) : Response * World :=
  (hd no_reply (net w),
   mkWorld (tl (net w)) (clock w) (random w) (sent w ++ [req]) (slept w)).

(** [Date.now()] and [new Date()] *)
Definition Date_now (w : World) : Z * World :=
  (hd 0 (clock w),
   mkWorld (net w) (tl (clock w)) (random w) (sent w) (slept w)).

(** [Math.random()] *)
Definition Math_random (w : World) : Q * World :=
  (hd 0%Q (random w),
   mkWorld (net w) (clock w) (tl (random w)) (sent w) (slept w)).

(** [sleep(seconds)] *)
Definition sleep (seconds : Js.Num) (w : World) : World :=
  mkWorld (net w) (clock w) (random w) (sent w) (slept w ++ [seconds]).

(** [Math.floor(r * n)] *)
Definition random_index (r : Q) (n : Z) : Z := Qfloor (r * inject_Z n).

(** [array[Math.floor(r * array.length)]]; [None] is [undefined]. *)
Definition pick {A : Type} (array : list A) (r : Q) : option A :=
  let i := random_index r (Z.of_nat (length array)) in
  if (i <? 0)%Z then None else array !! Z.to_nat i.

(** [r.body && r.body.includes(word)] as a condition. *)
Definition body_includes (word : string) (r : Response) : bool :=
  match body r with
  | Some b =>
      if String.eqb b "" then false
      else match String.index 0 word b with Some _ => true | None => false end
  | None => false
  end.

(** [r.body && r.body.length > 0] as a condition. *)
Definition body_nonempty (r : Response) : bool :=
  match body r with
  | Some b => negb (String.eqb b "")
  | None => false
  end.

Definition BASE_URL : string := "http://127.0.0.1:3000".

Definition GET (path : string) (tag : option string) : Request :=
  mkRequest "GET" (BASE_URL ++ path) None tag.

Definition POST (path : string) (data : option Payload) (tag : option string)
  : Request :=
  mkRequest "POST" (BASE_URL ++ path) data tag.

(** The four branches of a dispatcher. *)
Inductive Scenario : Type :=
| HealthCheck
| UserOperations
| MqttOperations
| ChannelOperations.

#[global] Instance Scenario_eq_dec : EqDecision Scenario.
Proof. solve_decision. Defined.

(** ** The end-of-test summary handed to [handleSummary] *)

(** A metric of the summary: its own numeric fields and its [values]
    object, when it has one. *)
Record Metric : Type := mkMetric {
  fields : gmap string Js.Num;
  values : option (gmap string Js.Num)
}.

Record SummaryData : Type := mkSummaryData {
  metrics : gmap string Metric;
  testRunDurationMs : option Js.Num   (* [data.state.testRunDurationMs] *)
}.

(** [data.metrics.<name>?.<field>] *)
Definition metric_field (data : SummaryData) (name field : string)
  : option Js.Num :=
  match metrics data !! name with
  | Some m => fields m !! field
  | None => None
  end.

(** [data.metrics.<name>?.values?.<field>] *)
Definition metric_value (data : SummaryData) (name field : string)
  : option Js.Num :=
  match metrics data !! name with
  | Some m =>
      match values m with
      | Some vs => vs !! field
      | None => None
      end
  | None => None
  end.

(** Modelled from the spec: the driver of a run, which belongs to the k6
    runtime and is not among the sources.  It calls [setup], then the
    default function once per iteration, then [teardown] with the data
    [setup] returned; an error thrown by [setup] is fatal and propagates to
    the caller at once, before any iteration. *)
Definition run_test {S D T : Type}
    (setup : S -> (string + D) * S) (iteration : S -> S)
    (teardown : D -> S -> T * S) (iterations : nat) (st : S)
  : (string + T) * S :=
  match setup st with
  | (inl error, st1) => (inl error, st1)
  | (inr data, st1) =>
      let '(t, st2) := teardown data (Nat.iter iterations iteration st1) in
      (inr t, st2)
  end.

(** ** The comprehensive script: endpoint coverage *)

Module Coverage.

Record State : Type := mkState {
  endpointCoverage : gmap string Entry;
  errorRate : list Z;               (* samples of [Rate('errors')] *)
  endpointHits : Z;                 (* [Counter('endpoint_hits')] *)
  endpointResponseTime : list Z;    (* samples of the Trend *)
  successfulRequests : Z;           (* [Counter('successful_requests')] *)
  failedRequests : Z;               (* [Counter('failed_requests')] *)
  world : World
}.

Definition declared_keys : list string :=
  [ "GET /"; "GET /user/users"; "POST /user/users"; "GET /user/users/:id";
    "POST /mqtt/pub"; "GET /mqtt/consume"; "POST /channel/pub" ].

(** The [endpointCoverage] object literal. *)
Definition endpointCoverage0 : gmap string Entry :=
  list_to_map ((fun key => (key, entry0)) <$> declared_keys).

Definition init (w : World) : State := mkState endpointCoverage0 [] 0 [] 0 0 w.

Definition set_world (st : State) (w : World) : State :=
  mkState (endpointCoverage st) (errorRate st) (endpointHits st)
    (endpointResponseTime st) (successfulRequests st) (failedRequests st) w.

Definition set_endpointCoverage (st : State) (cov : gmap string Entry)
  : State :=
  mkState cov (errorRate st) (endpointHits st) (endpointResponseTime st)
    (successfulRequests st) (failedRequests st) (world st).

(** [errorRate.add(v)] *)
Definition errorRate_add (v : Z) (st : State) : State :=
  mkState (endpointCoverage st) (errorRate st ++ [v]) (endpointHits st)
    (endpointResponseTime st) (successfulRequests st) (failedRequests st)
    (world st).

(** [endpointHits.add(v)] *)
Definition endpointHits_add (v : Z) (st : State) : State :=
  mkState (endpointCoverage st) (errorRate st) (endpointHits st + v)
    (endpointResponseTime st) (successfulRequests st) (failedRequests st)
    (world st).

(** [endpointResponseTime.add(v)] *)
Definition endpointResponseTime_add (v : Z) (st : State) : State :=
  mkState (endpointCoverage st) (errorRate st) (endpointHits st)
    (endpointResponseTime st ++ [v]) (successfulRequests st)
    (failedRequests st) (world st).

(** [successfulRequests.add(v)] *)
Definition successfulRequests_add (v : Z) (st : State) : State :=
  mkState (endpointCoverage st) (errorRate st) (endpointHits st)
    (endpointResponseTime st) (successfulRequests st + v)
    (failedRequests st) (world st).

(** [failedRequests.add(v)] *)
Definition failedRequests_add (v : Z) (st : State) : State :=
  mkState (endpointCoverage st) (errorRate st) (endpointHits st)
    (endpointResponseTime st) (successfulRequests st)
    (failedRequests st + v) (world st).

(** The body of [if (endpointCoverage[endpoint]) { ... }] when the
    condition holds.  On an own key the four updates hit the entry; on a
    key found on the prototype they hit the inherited object and the
    table keeps its entries ([alter] changes nothing there). *)
Definition track_entry (endpoint : string) (success : bool)
    (responseTime : Z) (st : State) : State :=
  let cov1 := alter incr_hits endpoint (endpointCoverage st) in
  let cov2 := alter (add_totalResponseTime responseTime) endpoint cov1 in
  if success then
    successfulRequests_add 1
      (set_endpointCoverage st (alter incr_success endpoint cov2))
  else
    failedRequests_add 1
      (set_endpointCoverage st (alter incr_errors endpoint cov2)).

(** [endpointCoverage[endpoint]] as a condition. *)
Definition has_endpoint (st : State) (endpoint : string) : bool :=
  match endpointCoverage st !! endpoint with
  | Some _ => true
  | None => inherited endpoint
  end.

Definition trackEndpoint (endpoint : string) (success : bool)
    (responseTime : Z) (st : State) : State :=
  let st1 :=
    if has_endpoint st endpoint
    then track_entry endpoint success responseTime st
    else st in
  endpointResponseTime_add responseTime (endpointHits_add 1 st1).

(** One timed request: [startTime = Date.now()], the request,
    [responseTime = Date.now() - startTime]. *)
Definition timed_request (req : Request) (st : State)
  : Response * Z * State :=
  let '(startTime, w1) := Date_now (world st) in
  let '(response, w2) := http_request req w1 in
  let '(endTime, w3) := Date_now w2 in
  (response, endTime - startTime, set_world st w3).

Definition math_random (st : State) : Q * State :=
  let '(r, w) := Math_random (world st) in (r, set_world st w).

Record SetupData : Type := mkSetupData {
  serverReady : bool;
  testStartTime : Z;
  endpoints : list string
}.

(** [Object.keys(endpointCoverage)] *)
Definition keys (st : State) : list string :=
  (map_to_list (endpointCoverage st)).*1.

(** [Object.values(endpointCoverage)] *)
Definition entries (st : State) : list Entry :=
  (map_to_list (endpointCoverage st)).*2.

Definition setup (st : State) : (string + SetupData) * State :=
  let '(response, w1) := http_request (GET "/" None) (world st) in
  if negb (status response =? 200)%Z then
    (inl "Server is not responding correctly", set_world st w1)
  else
    let '(now, w2) := Date_now w1 in
    (inr (mkSetupData true now (keys st)), set_world st w2).

Definition testUsers : list Payload :=
  [ UserData "Alice" "alice@example.com";
    UserData "Bob" "bob@example.com";
    UserData "Charlie" "charlie@example.com";
    UserData "Diana" "diana@example.com";
    UserData "Eve" "eve@example.com" ].

Definition testMessages : list Payload :=
  [ MessageData "Hello World" "high";
    MessageData "Test Message" "medium";
    MessageData "Performance Test" "low";
    MessageData "Load Test Data" "high";
    MessageData "Coverage Test" "medium" ].

(** The [check] calls, one per step. *)
Definition check_health (r : Response) : bool :=
  (status r =? 200)%Z && Js.Qltb (duration r) 100 && body_includes "Hello" r.

Definition check_get_users (r : Response) : bool :=
  (status r =? 200)%Z && Js.Qltb (duration r) 200.

Definition check_create_user (r : Response) : bool :=
  ((status r =? 200)%Z || (status r =? 201)%Z) && Js.Qltb (duration r) 300.

Definition check_get_user (r : Response) : bool :=
  Js.Qltb (duration r) 200.

Definition check_mqtt_publish (r : Response) : bool :=
  (status r =? 200)%Z && Js.Qltb (duration r) 500.

Definition check_mqtt_consume (r : Response) : bool :=
  Js.Qltb (duration r) 300.

Definition check_channel_publish (r : Response) : bool :=
  Js.Qltb (duration r) 400 &&
  ((200 <=? status r)%Z && (status r <? 300)%Z).

Definition testHealthCheck (st : State) : State :=
  let '(response, responseTime, st1) :=
    timed_request (GET "/" (Some "health_check")) st in
  let success := check_health response in
  let st2 := trackEndpoint "GET /" success responseTime st1 in
  if negb success then errorRate_add 1 st2 else st2.

Definition testUserOperations (st : State) : State :=
  let '(response, responseTime, st1) :=
    timed_request (GET "/user/users" (Some "get_users")) st in
  let success := check_get_users response in
  let st2 := trackEndpoint "GET /user/users" success responseTime st1 in
  if negb success then errorRate_add 1 st2
  else
    let '(r, st3) := math_random st2 in
    let userData := pick testUsers r in
    let '(response, responseTime, st4) :=
      timed_request (POST "/user/users" userData (Some "create_user")) st3 in
    let success := check_create_user response in
    let st5 := trackEndpoint "POST /user/users" success responseTime st4 in
    if negb success then errorRate_add 1 st5
    else
      let '(response, responseTime, st6) :=
        timed_request (GET "/user/users/1" (Some "get_user_by_id")) st5 in
      let success := check_get_user response in
      trackEndpoint "GET /user/users/:id" success responseTime st6.

Definition testMqttOperations (st : State) : State :=
  let '(r, st1) := math_random st in
  let messageData := pick testMessages r in
  let '(response, responseTime, st2) :=
    timed_request (POST "/mqtt/pub" messageData (Some "mqtt_publish")) st1 in
  let success := check_mqtt_publish response in
  let st3 := trackEndpoint "POST /mqtt/pub" success responseTime st2 in
  if negb success then errorRate_add 1 st3
  else
    let '(response, responseTime, st4) :=
      timed_request (GET "/mqtt/consume" (Some "mqtt_consume")) st3 in
    let success := check_mqtt_consume response in
    let st5 := trackEndpoint "GET /mqtt/consume" success responseTime st4 in
    if negb success then errorRate_add 1 st5 else st5.

Definition testChannelOperations (st : State) : State :=
  let '(r1, st1) := math_random st in
  let '(r2, st2) := math_random st1 in
  let '(_, w3) := Date_now (world st2) in
  let channelData :=
    ChannelData (random_index r1 100 + 1) (Some r2) in
  let '(response, responseTime, st4) :=
    timed_request
      (POST "/channel/pub" (Some channelData) (Some "channel_publish"))
      (set_world st2 w3) in
  let success := check_channel_publish response in
  let st5 := trackEndpoint "POST /channel/pub" success responseTime st4 in
  if negb success then errorRate_add 1 st5 else st5.

(** The branch the default function takes for a draw [testScenario]. *)
Definition select (testScenario : Q) : Scenario :=
  if Js.Qltb testScenario (Js.literal 0.25) then HealthCheck
  else if Js.Qltb testScenario (Js.literal 0.5) then UserOperations
  else if Js.Qltb testScenario (Js.literal 0.75) then MqttOperations
  else ChannelOperations.

Definition run_scenario (s : Scenario) (st : State) : State :=
  match s with
  | HealthCheck => testHealthCheck st
  | UserOperations => testUserOperations st
  | MqttOperations => testMqttOperations st
  | ChannelOperations => testChannelOperations st
  end.

(** The default function: one iteration of a virtual user. *)
Definition default (st : State) : State :=
  let '(testScenario, st1) := math_random st in
  let st2 := run_scenario (select testScenario) st1 in
  let '(r, st3) := math_random st2 in
  set_world st3
    (sleep (Js.add (Js.mul (Js.Fin r) (Js.Fin 2)) (Js.Fin (Js.literal 0.5)))
       (world st3)).

(** [((num / den) * 100).toFixed(2)] on two counters. *)
Definition percent2 (num den : Z) : string :=
  Js.toFixed2 (Js.mul (Js.div (Js.of_Z num) (Js.of_Z den)) (Js.of_Z 100)).

(** [(num / den).toFixed(2)] on two counters. *)
Definition ratio2 (num den : Z) : string :=
  Js.toFixed2 (Js.div (Js.of_Z num) (Js.of_Z den)).

(** An entry of [coverageStats] in [teardown]. *)
Record EndpointStats : Type := mkEndpointStats {
  cs_hits : Z;
  cs_successRate : string;
  cs_avgResponseTime : string;
  cs_errors : Z
}.

Definition stats_of (stats : Entry) : EndpointStats :=
  mkEndpointStats (hits stats)
    (if (0 <? hits stats)%Z
     then percent2 (success stats) (hits stats) ++ "%" else "0%")
    (if (0 <? hits stats)%Z
     then ratio2 (totalResponseTime stats) (hits stats) ++ "ms" else "0ms")
    (errors stats).

Record TeardownData : Type := mkTeardownData {
  testEndTime : Z;
  testDuration : Z;
  coverageStats : gmap string EndpointStats;
  td_coveragePercentage : string;
  td_totalEndpoints : Z;
  td_testedEndpoints : Z
}.

(** One round of the loop of [teardown] over [Object.entries]. *)
Definition teardown_step (acc : gmap string EndpointStats * Z * Z)
    (kv : string * Entry) : gmap string EndpointStats * Z * Z :=
  let '(coverageStats, totalEndpoints, testedEndpoints) := acc in
  (<[kv.1 := stats_of kv.2]> coverageStats,
   totalEndpoints + 1,
   if (0 <? hits kv.2)%Z then testedEndpoints + 1 else testedEndpoints).

Definition teardown (data : SetupData) (st : State) : TeardownData * State :=
  let '(coverageStats, totalEndpoints, testedEndpoints) :=
    foldl teardown_step (∅, 0, 0) (map_to_list (endpointCoverage st)) in
  let coveragePercentage := percent2 testedEndpoints totalEndpoints in
  let '(t1, w1) := Date_now (world st) in
  let '(t2, w2) := Date_now w1 in
  (mkTeardownData t1 (t2 - testStartTime data) coverageStats
     coveragePercentage totalEndpoints testedEndpoints,
   set_world st w2).

(** An entry of [coverageReport.endpointCoverage] in [handleSummary]. *)
Record EndpointReport : Type := mkEndpointReport {
  r_hits : Z;
  successRate : string;
  avgResponseTime : string;
  r_errors : Z;
  tested : bool
}.

Definition report_of (stats : Entry) : EndpointReport :=
  mkEndpointReport (hits stats)
    (if (0 <? hits stats)%Z
     then percent2 (success stats) (hits stats) else "0")
    (if (0 <? hits stats)%Z
     then ratio2 (totalResponseTime stats) (hits stats) else "0")
    (errors stats)
    (0 <? hits stats)%Z.

Record TestInfo : Type := mkTestInfo {
  timestamp : Z;                (* the clock reading the string renders *)
  ti_duration : Js.Num;
  iterations : Js.Num;
  vus : Js.Num
}.

Record CoverageSummary : Type := mkCoverageSummary {
  totalEndpoints : Z;
  testedEndpoints : Z;
  coveragePercentage : string
}.

Record CoverageReport : Type := mkCoverageReport {
  testInfo : TestInfo;
  report_endpoints : gmap string EndpointReport;
  summary : CoverageSummary
}.

(** The contents of the files [handleSummary] returns.  [htmlReport] and
    [textSummary] are external renderers; an artifact records the
    arguments they are applied to. *)
Inductive Artifact : Type :=
| HtmlReport (data : SummaryData) (title description : string)
| TextSummary (data : SummaryData) (indent : string) (enableColors : bool)
| JsonData (data : SummaryData)
| JsonCoverage (report : CoverageReport).

(** One round of the loop of [handleSummary] over [Object.entries]. *)
Definition report_step (acc : gmap string EndpointReport)
    (kv : string * Entry) : gmap string EndpointReport :=
  <[kv.1 := report_of kv.2]> acc.

Definition coverage_report (data : SummaryData) (now : Z) (st : State)
  : CoverageReport :=
  let testInfo :=
    mkTestInfo now
      (Js.or0 (metric_field data "iteration_duration" "avg"))
      (Js.or0 (metric_field data "iterations" "count"))
      (Js.or0 (metric_field data "vus_max" "value")) in
  let endpointCoverage :=
    foldl report_step ∅ (map_to_list (endpointCoverage st)) in
  let totalEndpoints := Z.of_nat (length (keys st)) in
  let testedEndpoints :=
    Z.of_nat (length (filter (fun stats => 0 < hits stats)%Z (entries st))) in
  mkCoverageReport testInfo endpointCoverage
    (mkCoverageSummary totalEndpoints testedEndpoints
       (percent2 testedEndpoints totalEndpoints)).

Definition handleSummary (data : SummaryData) (st : State)
  : list (string * Artifact) * State :=
  let '(now, w1) := Date_now (world st) in
  let coverageReport := coverage_report data now st in
  ([ ("reports/performance-report.html",
      HtmlReport data "Rust API Performance Test Report"
        "Comprehensive performance analysis with endpoint coverage");
     ("reports/performance-summary.txt", TextSummary data " " false);
     ("reports/performance-data.json", JsonData data);
     ("reports/endpoint-coverage.json", JsonCoverage coverageReport);
     ("stdout", TextSummary data " " true) ],
   set_world st w1).

End Coverage.

(** ** The basic script, [k6-performance-test.js] *)

Module Basic.

Record State : Type := mkState {
  errorRate : list Z;               (* samples of [Rate('errors')] *)
  world : World
}.

Definition init (w : World) : State := mkState [] w.

Definition set_world (st : State) (w : World) : State :=
  mkState (errorRate st) w.

(** [errorRate.add(v)] *)
Definition errorRate_add (v : Z) (st : State) : State :=
  mkState (errorRate st ++ [v]) (world st).

Definition request (req : Request) (st : State) : Response * State :=
  let '(response, w) := http_request req (world st) in
  (response, set_world st w).

Definition math_random (st : State) : Q * State :=
  let '(r, w) := Math_random (world st) in (r, set_world st w).

Definition setup (st : State) : (string + bool) * State :=
  let '(response, st1) := request (GET "/" None) st in
  if negb (status response =? 200)%Z then
    (inl "Server is not responding correctly", st1)
  else (inr true, st1).

Definition testUsers : list Payload :=
  [ UserData "Alice" "alice@example.com";
    UserData "Bob" "bob@example.com";
    UserData "Charlie" "charlie@example.com" ].

Definition testMessages : list Payload :=
  [ MessageData "Hello World" "high";
    MessageData "Test Message" "medium";
    MessageData "Performance Test" "low" ].

Definition check_health (r : Response) : bool :=
  (status r =? 200)%Z && Js.Qltb (duration r) 100 && body_includes "Hello" r.

Definition check_get_users (r : Response) : bool :=
  (status r =? 200)%Z && Js.Qltb (duration r) 200.

Definition check_create_user (r : Response) : bool :=
  ((status r =? 200)%Z || (status r =? 201)%Z) && Js.Qltb (duration r) 300.

Definition check_mqtt_publish (r : Response) : bool :=
  (status r =? 200)%Z && Js.Qltb (duration r) 500.

Definition check_mqtt_consume (r : Response) : bool :=
  Js.Qltb (duration r) 300.

Definition check_channel_publish (r : Response) : bool :=
  Js.Qltb (duration r) 400.

Definition testHealthCheck (st : State) : State :=
  let '(response, st1) := request (GET "/" None) st in
  let success := check_health response in
  if negb success then errorRate_add 1 st1 else st1.

Definition testUserOperations (st : State) : State :=
  let '(response, st1) := request (GET "/user/users" None) st in
  let success := check_get_users response in
  if negb success then errorRate_add 1 st1
  else
    let '(r, st2) := math_random st1 in
    let userData := pick testUsers r in
    let '(response, st3) := request (POST "/user/users" userData None) st2 in
    let success := check_create_user response in
    if negb success then errorRate_add 1 st3
    else
      let '(_, st4) := request (GET "/user/users/1" None) st3 in
      st4.

Definition testMqttOperations (st : State) : State :=
  let '(r, st1) := math_random st in
  let messageData := pick testMessages r in
  let '(response, st2) := request (POST "/mqtt/pub" messageData None) st1 in
  let success := check_mqtt_publish response in
  if negb success then errorRate_add 1 st2
  else
    let '(response, st3) := request (GET "/mqtt/consume" None) st2 in
    let success := check_mqtt_consume response in
    if negb success then errorRate_add 1 st3 else st3.

Definition testChannelOperations (st : State) : State :=
  let '(r, st1) := math_random st in
  let '(_, w2) := Date_now (world st1) in
  let channelData := ChannelData (random_index r 100 + 1) None in
  let '(response, st3) :=
    request (POST "/channel/pub" (Some channelData) None) (set_world st1 w2) in
  let success := check_channel_publish response in
  if negb success then errorRate_add 1 st3 else st3.

(** The branch the default function takes for a draw [testScenario]. *)
Definition select (testScenario : Q) : Scenario :=
  if Js.Qltb testScenario (Js.literal 0.3) then HealthCheck
  else if Js.Qltb testScenario (Js.literal 0.6) then UserOperations
  else if Js.Qltb testScenario (Js.literal 0.8) then MqttOperations
  else ChannelOperations.

Definition run_scenario (s : Scenario) (st : State) : State :=
  match s with
  | HealthCheck => testHealthCheck st
  | UserOperations => testUserOperations st
  | MqttOperations => testMqttOperations st
  | ChannelOperations => testChannelOperations st
  end.

(** The default function: one iteration of a virtual user. *)
Definition default (st : State) : State :=
  let '(testScenario, st1) := math_random st in
  let st2 := run_scenario (select testScenario) st1 in
  set_world st2 (sleep (Js.Fin 1) (world st2)).

Definition teardown (data : bool) (st : State) : unit * State := (tt, st).

End Basic.

(** ** The MQTT publish script, [k6-mqtt-pub-test.js] *)

Module Mqtt.

Record State : Type := mkState {
  testMessages : list Payload;
  errorRate : list Z;               (* [Rate('mqtt_publish_errors')] *)
  successfulRequests : Z;           (* [Counter('mqtt_publish_success')] *)
  failedRequests : Z;               (* [Counter('mqtt_publish_failed')] *)
  mqttPublishResponseTime : list Z; (* samples of the Trend *)
  world : World
}.

(** Loading the script evaluates the [testMessages] literal, which reads the
    clock twice. *)
Definition init (w : World) : State :=
  let '(t1, w1) := Date_now w in
  let '(t2, w2) := Date_now w1 in
  mkState
    [ MqttMessage "test/performance" (Text "Performance test message 1") 0;
      MqttMessage "test/load" (Text "Load testing with k6") 1;
      MqttMessage "test/stress" (Text "Stress testing MQTT endpoint") 0;
      MqttMessage "sensors/temperature" (Temperature t1) 1;
      MqttMessage "alerts/critical" (Alert t2) 2 ]
    [] 0 0 [] w2.

(** The declared [options.thresholds]: metric, aggregation, limit of each
    [aggregation<limit]. *)
Definition thresholds : list (string * list (string * Q)) :=
  [ ("mqtt_publish_response_time", [("p(95)", 1000%Q); ("p(99)", 2000%Q)]);
    ("mqtt_publish_errors", [("rate", 0.1%Q)]);
    ("http_req_failed", [("rate", 0.1%Q)]) ].

Definition set_world (st : State) (w : World) : State :=
  mkState (testMessages st) (errorRate st) (successfulRequests st)
    (failedRequests st) (mqttPublishResponseTime st) w.

(** [errorRate.add(v)] *)
Definition errorRate_add (v : Z) (st : State) : State :=
  mkState (testMessages st) (errorRate st ++ [v]) (successfulRequests st)
    (failedRequests st) (mqttPublishResponseTime st) (world st).

(** [successfulRequests.add(v)] *)
Definition successfulRequests_add (v : Z) (st : State) : State :=
  mkState (testMessages st) (errorRate st) (successfulRequests st + v)
    (failedRequests st) (mqttPublishResponseTime st) (world st).

(** [failedRequests.add(v)] *)
Definition failedRequests_add (v : Z) (st : State) : State :=
  mkState (testMessages st) (errorRate st) (successfulRequests st)
    (failedRequests st + v) (mqttPublishResponseTime st) (world st).

(** [mqttPublishResponseTime.add(v)] *)
Definition mqttPublishResponseTime_add (v : Z) (st : State) : State :=
  mkState (testMessages st) (errorRate st) (successfulRequests st)
    (failedRequests st) (mqttPublishResponseTime st ++ [v]) (world st).

Definition math_random (st : State) : Q * State :=
  let '(r, w) := Math_random (world st) in (r, set_world st w).

Definition setup (st : State) : (string + Z) * State :=
  let '(response, w1) := http_request (GET "/" None) (world st) in
  if negb (status response =? 200)%Z then
    (inl "Server is not responding correctly", set_world st w1)
  else
    let '(now, w2) := Date_now w1 in
    (inr now, set_world st w2).

Definition check_publish (r : Response) : bool :=
  (status r =? 200)%Z && Js.Qltb (duration r) 1000 && body_nonempty r
  && body_includes "success" r.

(** The default function: one iteration of a virtual user. *)
Definition default (st : State) : State :=
  let '(r, st1) := math_random st in
  let messageData := pick (testMessages st1) r in
  let '(startTime, w2) := Date_now (world st1) in
  let '(response, w3) :=
    http_request (POST "/mqtt/publish" messageData (Some "mqtt_publish")) w2 in
  let '(endTime, w4) := Date_now w3 in
  let responseTime := endTime - startTime in
  let st5 := mqttPublishResponseTime_add responseTime (set_world st1 w4) in
  let success := check_publish response in
  let st6 :=
    if success then successfulRequests_add 1 st5
    else errorRate_add 1 (failedRequests_add 1 st5) in
  let '(r2, st7) := math_random st6 in
  set_world st7
    (sleep (Js.add (Js.mul (Js.Fin r2) (Js.Fin 1)) (Js.Fin (Js.literal 0.5)))
       (world st7)).

(** [teardown] reads the clock for the duration it logs. *)
Definition teardown (data : Z) (st : State) : unit * State :=
  let '(_, w1) := Date_now (world st) in (tt, set_world st w1).

Record TestInfo : Type := mkTestInfo {
  endpoint : string;
  timestamp : Z;                  (* the clock reading the string renders *)
  testDate : Z;                   (* the clock reading the string renders *)
  duration : string;
  iterations : Js.Num;
  maxVus : Js.Num;
  totalRequests : Js.Num;
  ti_successfulRequests : Js.Num;
  ti_failedRequests : Js.Num;
  successRate : string
}.

Record ResponseTime : Type := mkResponseTime {
  avg : Js.Field;
  min : Js.Field;
  max : Js.Field;
  p50 : Js.Field;
  p90 : Js.Field;
  p95 : Js.Field;
  p99 : Js.Field
}.

Record DataTransfer : Type := mkDataTransfer {
  received : Js.Field;
  dt_sent : Js.Field
}.

Record Errors : Type := mkErrors {
  rate : Js.Field;
  count : Js.Num
}.

Record Metrics : Type := mkMetrics {
  responseTime : ResponseTime;
  dataTransfer : DataTransfer;
  m_errors : Errors
}.

Record Thresholds : Type := mkThresholds {
  p95_under_1000ms : bool;
  p99_under_2000ms : bool;
  error_rate_under_10pct : bool
}.

Record PerformanceData : Type := mkPerformanceData {
  testInfo : TestInfo;
  pd_metrics : Metrics;
  pd_thresholds : Thresholds
}.

(** [s || 0] for a string. *)
Definition or_zero (s : string) : Js.Field :=
  if String.eqb s "" then Js.FNum (Js.Fin 0) else Js.FStr s.

(** [v?.toFixed(2) || 0] *)
Definition fixed2_or0 (v : option Js.Num) : Js.Field :=
  match v with
  | Some n => or_zero (Js.toFixed2 n)
  | None => Js.FNum (Js.Fin 0)
  end.

(** [data.metrics.http_req_duration?.values?.<field>] *)
Definition http_req_duration (data : SummaryData) (field : string)
  : option Js.Num :=
  metric_value data "http_req_duration" field.

(** [data.metrics.http_reqs?.values?.count || 0] *)
Definition httpReqs (data : SummaryData) : Js.Num :=
  Js.or0 (metric_value data "http_reqs" "count").

(** [data.metrics.http_req_failed?.values?.count || 0] *)
Definition httpReqFailed (data : SummaryData) : Js.Num :=
  Js.or0 (metric_value data "http_req_failed" "count").

Definition httpSuccessRate (data : SummaryData) : string :=
  if Js.gt (httpReqs data) (Js.Fin 0) then
    Js.toFixed2
      (Js.mul
         (Js.div (Js.sub (httpReqs data) (httpReqFailed data)) (httpReqs data))
         (Js.Fin 100))
  else "0".

Definition performanceData (data : SummaryData) (timestamp testDate : Z)
  : PerformanceData :=
  mkPerformanceData
    (mkTestInfo "/mqtt/publish" timestamp testDate
       (Js.toFixed2 (Js.div (Js.of_undef (testRunDurationMs data))
                       (Js.Fin 1000)))
       (Js.or0 (metric_value data "iterations" "count"))
       (Js.or0 (metric_value data "vus_max" "max"))
       (httpReqs data)
       (Js.sub (httpReqs data) (httpReqFailed data))
       (httpReqFailed data)
       (httpSuccessRate data))
    (mkMetrics
       (mkResponseTime
          (fixed2_or0 (http_req_duration data "avg"))
          (fixed2_or0 (http_req_duration data "min"))
          (fixed2_or0 (http_req_duration data "max"))
          (fixed2_or0 (http_req_duration data "p50"))
          (fixed2_or0 (http_req_duration data "p90"))
          (fixed2_or0 (http_req_duration data "p95"))
          (fixed2_or0 (http_req_duration data "p99")))
       (mkDataTransfer
          (or_zero
             (Js.toFixed2
                (Js.div
                   (Js.of_undef (metric_value data "data_received" "count"))
                   (Js.Fin 1024))))
          (or_zero
             (Js.toFixed2
                (Js.div (Js.of_undef (metric_value data "data_sent" "count"))
                   (Js.Fin 1024)))))
       (mkErrors
          (or_zero
             (Js.toFixed2
                (Js.mul (Js.div (httpReqFailed data) (httpReqs data))
                   (Js.Fin 100))))
          (httpReqFailed data)))
    (mkThresholds
       (Js.lt (Js.of_undef (http_req_duration data "p95")) (Js.Fin 1000))
       (Js.lt (Js.of_undef (http_req_duration data "p99")) (Js.Fin 2000))
       (Js.lt (Js.div (httpReqFailed data) (httpReqs data))
          (Js.Fin (Js.literal 0.1)))).

(** A value interpolated into the HTML template. *)
Inductive Slot : Type :=
| SDate (t : Z)
| SNum (n : Js.Num)
| SStr (s : string)
| SField (f : Js.Field).

Definition status_class (passed : bool) : Slot :=
  SStr (if passed then "status-pass" else "status-fail").

Definition status_label (passed : bool) : Slot :=
  SStr (if passed then "✅ PASS" else "❌ FAIL").

(** The HTML report: the values its template interpolates, in the order of
    the template. *)
Definition htmlReport (testDate : Z) (pd : PerformanceData) : list Slot :=
  let info := testInfo pd in
  let rt := responseTime (pd_metrics pd) in
  let th := pd_thresholds pd in
  [ SDate testDate; SDate testDate;
    SNum (totalRequests info);
    SStr (successRate info); SNum (ti_successfulRequests info);
    SField (avg rt);
    SNum (maxVus info);
    SStr (duration info);
    SField (rate (m_errors (pd_metrics pd)));
    SNum (count (m_errors (pd_metrics pd)));
    SField (min rt); SField (p50 rt); SField (p90 rt); SField (p95 rt);
    SField (p99 rt); SField (max rt);
    status_class (p95_under_1000ms th); status_label (p95_under_1000ms th);
    status_class (p99_under_2000ms th); status_label (p99_under_2000ms th);
    status_class (error_rate_under_10pct th);
    status_label (error_rate_under_10pct th);
    SDate testDate;
    SField (received (dataTransfer (pd_metrics pd)));
    SField (dt_sent (dataTransfer (pd_metrics pd))) ].

(** [reportId]: the two clock readings its date and time parts render. *)
Definition ReportId : Type := (Z * Z)%type.

Inductive Name : Type :=
| Stdout
| ReportFile (reportId : ReportId) (suffix : string).

Inductive Content : Type :=
| StdoutText (httpReqs : Js.Num) (httpSuccessRate : string) (avg : Js.Field)
    (reportId : ReportId)
| Html (slots : list Slot)
| JsonPerformance (pd : PerformanceData)
| JsonRaw (data : SummaryData).

Definition handleSummary (data : SummaryData) (st : State)
  : list (Name * Content) * State :=
  let '(timestamp, w1) := Date_now (world st) in
  let '(testDate, w2) := Date_now w1 in
  let '(day, w3) := Date_now w2 in
  let '(time, w4) := Date_now w3 in
  let reportId := (day, time) in
  let pd := performanceData data timestamp testDate in
  ([ (Stdout,
      StdoutText (httpReqs data) (httpSuccessRate data)
        (avg (responseTime (pd_metrics pd))) reportId);
     (ReportFile reportId "-report.html", Html (htmlReport testDate pd));
     (ReportFile reportId "-data.json", JsonPerformance pd);
     (ReportFile reportId "-raw.json", JsonRaw data) ],
   set_world st w4).

(** Modelled from the spec: the evaluation of a declared threshold
    [aggregation<limit], which the k6 runtime does and the sources only
    declare: the aggregation of the metric, read in the summary, is below
    the limit; an absent one is not. *)
Definition declared_passes (data : SummaryData)
    (metric aggregation : string) (limit : Q) : bool :=
  Js.lt (Js.of_undef (metric_value data metric aggregation)) (Js.Fin limit).

End Mqtt.

(** ** Notions the properties are stated with *)

(** A call of [trackEndpoint]: endpoint, success, response time. *)
Definition Call : Type := (string * bool * Z)%type.

Definition call_time (c : Call) : Z := c.2.

(** A sequence of [trackEndpoint] calls, run in order. *)
Definition run_calls (calls : list Call) (st : Coverage.State)
  : Coverage.State :=
  foldl (fun st c => Coverage.trackEndpoint c.1.1 c.1.2 c.2 st) st calls.

(** What one call does to the entry of its endpoint. *)
Definition bump (ok : bool) (responseTime : Z) (e : Entry) : Entry :=
  mkEntry (hits e + 1)
    (if ok then success e + 1 else success e)
    (if ok then errors e else errors e + 1)
    (totalResponseTime e + responseTime).

(** The sum of the per-endpoint hit counts. *)
Definition sum_hits (cov : gmap string Entry) : Z :=
  foldr Z.add 0 (hits <$> (map_to_list cov).*2).

(** What every state reached by [trackEndpoint] calls satisfies: the keys
    of the table are the declared ones, and the global counter is at least
    the sum of the per-endpoint hits. *)
Definition tracked (st : Coverage.State) : Prop :=
  (forall key, is_Some (Coverage.endpointCoverage st !! key)
               <-> key ∈ Coverage.declared_keys)
  /\ sum_hits (Coverage.endpointCoverage st) <= Coverage.endpointHits st.

(** Every entry of a coverage table satisfies the entry invariant. *)
Definition coverage_ok (cov : gmap string Entry) : Prop :=
  forall key e, cov !! key = Some e -> entry_ok e.

(** The number of endpoints of a table that were hit at least once. *)
Definition count_tested (cov : gmap string Entry) : nat :=
  size (filter (fun kv : string * Entry => 0 < hits kv.2) cov).

(** The [endpoint-coverage.json] artifact of a summary. *)
Definition coverage_artifact (artifacts : list (string * Coverage.Artifact))
  : option Coverage.CoverageReport :=
  match artifacts !! 3%nat with
  | Some ("reports/endpoint-coverage.json", Coverage.JsonCoverage report) =>
      Some report
  | _ => None
  end.

(** The scenarios in the order the dispatchers test for them. *)
Definition scenarios : list Scenario :=
  [HealthCheck; UserOperations; MqttOperations; ChannelOperations].

(** The weights the comprehensive script declares: 25% each. *)
Definition comprehensive_weight (s : Scenario) : Q := 25.

(** The weights the basic script declares: 30%, 30%, 20%, 20%. *)
Definition basic_weight (s : Scenario) : Q :=
  match s with
  | HealthCheck | UserOperations => 30
  | MqttOperations | ChannelOperations => 20
  end.

Definition Qsum (l : list Q) : Q := foldr Qplus 0%Q l.

(** [weight_i / sum(weights)] *)
Definition share (weight : Scenario -> Q) (s : Scenario) : Q :=
  weight s / Qsum (weight <$> scenarios).

(** The scenarios tested for before [s]. *)
Definition before (s : Scenario) : list Scenario :=
  match s with
  | HealthCheck => []
  | UserOperations => [HealthCheck]
  | MqttOperations => [HealthCheck; UserOperations]
  | ChannelOperations => [HealthCheck; UserOperations; MqttOperations]
  end.

(** The point of [0,1) where the share of [s] starts: the shares of the
    scenarios before it, added up. *)
Definition start (weight : Scenario -> Q) (s : Scenario) : Q :=
  Qsum (share weight <$> before s).

(** [r] lies in the half-open interval of length [len] that starts at
    [lo]. *)
Definition in_interval (lo len r : Q) : Prop := (lo <= r /\ r < lo + len)%Q.

(** The point [k/n] of the grid of [n] equidistant draws of [0,1). *)
Definition grid_point (n k : nat) : Q := Z.of_nat k # Pos.of_nat n.

(** How many of the [n] draws of the grid a dispatcher sends to [s]. *)
Definition selected (select : Q -> Scenario) (s : Scenario) (n : nat) : nat :=
  length (filter (fun k => select (grid_point n k) = s) (seq 0 n)).

(** The share of the [n] draws of the grid that a dispatcher sends to
    [s]: the probability of [s] under a uniform draw from the grid. *)
Definition frequency (select : Q -> Scenario) (s : Scenario) (n : nat) : Q :=
  Z.of_nat (selected select s n) # Pos.of_nat n.

(** The place of a scenario in the order of the tests. *)
Definition position (s : Scenario) : nat :=
  match s with
  | HealthCheck => 0
  | UserOperations => 1
  | MqttOperations => 2
  | ChannelOperations => 3
  end.

(** The quarter of the grid of [4 m] draws that belongs to [s]. *)
Definition grid_range (m : nat) (s : Scenario) (k : nat) : Prop :=
  (position s * m <= k < (position s + 1) * m)%nat.

#[global] Instance grid_range_dec m s k : Decision (grid_range m s k).
Proof. unfold grid_range. apply _. Defined.

(** The steps of [testUserOperations]: coverage key and URL of each. *)
Definition user_keys : list string :=
  ["GET /user/users"; "POST /user/users"; "GET /user/users/:id"].

Definition user_urls : list string :=
  [BASE_URL ++ "/user/users"; BASE_URL ++ "/user/users";
   BASE_URL ++ "/user/users/1"].

(** The reply to the [i]-th coming request. *)
Definition coming_reply (w : World) (i : nat) : Response :=
  hd no_reply (drop i (net w)).

(** How many steps of [testUserOperations] are attempted, given the
    outcome of the checks of the first two. *)
Definition user_steps_attempted (ok1 ok2 : bool) : nat :=
  if negb ok1 then 1 else if negb ok2 then 2 else 3.

(** One tracked step of a scenario: the timed request, its check, and the
    [trackEndpoint] call on the outcome. *)
Definition tracked_request (key : string) (req : Request)
    (check : Response -> bool) (st : Coverage.State)
  : bool * Coverage.State :=
  let '(response, responseTime, st1) := Coverage.timed_request req st in
  (check response,
   Coverage.trackEndpoint key (check response) responseTime st1).

(** The world after one timed request. *)
Definition after_request (req : Request) (w : World) : World :=
  mkWorld (tl (net w)) (tl (tl (clock w))) (random w)
    (sent w ++ [req]) (slept w).

(** What one tracked step does to a state. *)
Definition tracked_step (key : string) (req : Request) (ok : bool)
    (st st2 : Coverage.State) : Prop :=
  Coverage.world st2 = after_request req (Coverage.world st)
  /\ Coverage.errorRate st2 = Coverage.errorRate st
  /\ Coverage.endpointHits st2 = Coverage.endpointHits st + 1
  /\ (exists rt, Coverage.endpointResponseTime st2
                 = (Coverage.endpointResponseTime st ++ [rt])%list
                 /\ Coverage.endpointCoverage st2
                    = alter (bump ok rt) key (Coverage.endpointCoverage st)).

(** The effect of a sequence of [trackEndpoint] calls on a coverage
    table. *)
Definition apply_calls (calls : list Call) (cov : gmap string Entry)
  : gmap string Entry :=
  foldl (fun cov (c : Call) => alter (bump c.1.2 c.2) c.1.1 cov) cov calls.

(** The world after the reachability request of [setup]. *)
Definition probed (w : World) : World :=
  mkWorld (tl (net w)) (clock w) (random w) (sent w ++ [GET "/" None])
    (slept w).

Definition not_responding : string := "Server is not responding correctly".







(** A step whose failure adds a sample to [errors]. *)
Definition recorded_request (key : string) (req : Request)
    (check : Response -> bool) (st : Coverage.State)
  : bool * Coverage.State :=
  let '(ok, st2) := tracked_request key req check st in
  (ok, if negb ok then Coverage.errorRate_add 1 st2 else st2).

(** A summary built from the [values] of its metrics. *)
Definition summary_of (ms : list (string * list (string * Js.Num)))
  : SummaryData :=
  mkSummaryData
    (list_to_map
       ((fun m : string * list (string * Js.Num) =>
           (m.1, mkMetric ∅ (Some (list_to_map m.2)))) <$> ms))
    None.

(** The thresholds block of the MQTT report. *)
Definition report_thresholds (data : SummaryData) : Mqtt.Thresholds :=
  Mqtt.pd_thresholds (Mqtt.performanceData data 0 0).

(** A summary with ten requests and no [count] of failed ones. *)
Definition summary_without_failures : SummaryData :=
  summary_of [("http_reqs", [("count", Js.Fin 10)])].

(** The summary with one metric replaced. *)
Definition with_metric (name : string) (m : Metric) (data : SummaryData)
  : SummaryData :=
  mkSummaryData (<[name := m]> (metrics data)) (testRunDurationMs data).

(** The metrics the MQTT report reads. *)
Definition report_metrics : list string :=
  [ "http_reqs"; "http_req_failed"; "iterations"; "vus_max";
    "http_req_duration"; "data_received"; "data_sent" ].

(** The response times the MQTT report shows. *)
Definition report_response_time (data : SummaryData) : Mqtt.ResponseTime :=
  Mqtt.responseTime (Mqtt.pd_metrics (Mqtt.performanceData data 0 0)).

(** A summary whose request durations have a 95th percentile just under
    the limit and a 99th above it, while the custom response-time metric
    of the declared thresholds is well under both limits. *)
Definition summary_near_limit : SummaryData :=
  summary_of
    [ ("http_req_duration",
       [("p95", Js.Fin 999.996); ("p99", Js.Fin 2500)]);
      ("mqtt_publish_response_time",
       [("p(95)", Js.Fin 500); ("p(99)", Js.Fin 900)]) ].

(** The metric values of an artifact of the comprehensive script: the
    artifact with the time stamp of the coverage report blanked. *)
Definition coverage_values (a : Coverage.Artifact) : Coverage.Artifact :=
  match a with
  | Coverage.JsonCoverage r =>
      Coverage.JsonCoverage
        (Coverage.mkCoverageReport
           (Coverage.mkTestInfo 0
              (Coverage.ti_duration (Coverage.testInfo r))
              (Coverage.iterations (Coverage.testInfo r))
              (Coverage.vus (Coverage.testInfo r)))
           (Coverage.report_endpoints r) (Coverage.summary r))
  | _ => a
  end.

Definition undated_slot (s : Mqtt.Slot) : Mqtt.Slot :=
  match s with
  | Mqtt.SDate _ => Mqtt.SDate 0
  | _ => s
  end.

Definition undated_data (pd : Mqtt.PerformanceData) : Mqtt.PerformanceData :=
  let info := Mqtt.testInfo pd in
  Mqtt.mkPerformanceData
    (Mqtt.mkTestInfo (Mqtt.endpoint info) 0 0 (Mqtt.duration info)
       (Mqtt.iterations info) (Mqtt.maxVus info) (Mqtt.totalRequests info)
       (Mqtt.ti_successfulRequests info) (Mqtt.ti_failedRequests info)
       (Mqtt.successRate info))
    (Mqtt.pd_metrics pd) (Mqtt.pd_thresholds pd).

(** The metric values of an artifact of the MQTT script: the artifact with
    its dates and its report identifier blanked. *)
Definition mqtt_values (c : Mqtt.Content) : Mqtt.Content :=
  match c with
  | Mqtt.StdoutText reqs rate avg _ => Mqtt.StdoutText reqs rate avg (0, 0)
  | Mqtt.Html slots => Mqtt.Html (undated_slot <$> slots)
  | Mqtt.JsonPerformance pd => Mqtt.JsonPerformance (undated_data pd)
  | Mqtt.JsonRaw data => Mqtt.JsonRaw data
  end.

(** The calls of a sequence on one endpoint. *)
Definition calls_on (key : string) (calls : list Call) : list Call :=
  filter (fun c : Call => c.1.1 = key) calls.

(** The entry a sequence of calls on one endpoint adds up to: how many
    calls, how many with a passed and with a failed check, and the sum of
    their response times. *)
Definition tally (calls : list Call) : Entry :=
  mkEntry (Z.of_nat (length calls))
    (Z.of_nat (length (filter (fun c : Call => c.1.2 = true) calls)))
    (Z.of_nat (length (filter (fun c : Call => c.1.2 = false) calls)))
    (foldr Z.add 0 calls.*2).

(** Field by field sum of two entries. *)
Definition merge (e t : Entry) : Entry :=
  mkEntry (hits e + hits t) (success e + success t) (errors e + errors t)
    (totalResponseTime e + totalResponseTime t).

(** The calls of a sequence that reach the body of the [if] of
    [trackEndpoint] in a state, with the given outcome of the check. *)
Definition counted_calls (st : Coverage.State) (ok : bool)
    (calls : list Call) : list Call :=
  filter (fun c : Call => Coverage.has_endpoint st c.1.1 = true /\ c.1.2 = ok)
    calls.


(** The books of the comprehensive script balance: the table has the
    declared keys, and the global counter equals the sum of the
    per-endpoint hits, the sum of the success and failure counters, and the
    number of samples of the trend. *)
Definition accounted (st : Coverage.State) : Prop :=
  (forall key, is_Some (Coverage.endpointCoverage st !! key)
               <-> key ∈ Coverage.declared_keys)
  /\ sum_hits (Coverage.endpointCoverage st) = Coverage.endpointHits st
  /\ Coverage.successfulRequests st + Coverage.failedRequests st
     = Coverage.endpointHits st
  /\ Z.of_nat (length (Coverage.endpointResponseTime st))
     = Coverage.endpointHits st.

(** From [st] to [st'] between [lo] and [hi] tracked requests were made:
    the books still balance, each request sent was tracked once, no pause
    was taken, and draws were only consumed. *)
Definition progress (lo hi : Z) (st st' : Coverage.State) : Prop :=
  (accounted st -> accounted st')
  /\ lo <= Coverage.endpointHits st' - Coverage.endpointHits st <= hi
  /\ Z.of_nat (length (sent (Coverage.world st')))
     - Z.of_nat (length (sent (Coverage.world st)))
     = Coverage.endpointHits st' - Coverage.endpointHits st
  /\ slept (Coverage.world st') = slept (Coverage.world st)
  /\ random (Coverage.world st') `suffix_of` random (Coverage.world st).

(** A value [Math.random()] can return. *)
Definition unit_draw (r : Q) : Prop := (0 <= r /\ r < 1)%Q.

(** A pause of between [lo] and [hi] seconds, both included. *)
Definition pause_within (lo hi : Q) (pause : Js.Num) : Prop :=
  exists seconds, pause = Js.Fin seconds /\ (lo <= seconds /\ seconds <= hi)%Q.

(** Where the draws start that the basic dispatcher sends to [s], and where
    they stop: the doubles its threshold literals denote. *)
Definition basic_start (s : Scenario) : Q :=
  match s with
  | HealthCheck => 0
  | UserOperations => Js.literal 0.3
  | MqttOperations => Js.literal 0.6
  | ChannelOperations => Js.literal 0.8
  end.

Definition basic_stop (s : Scenario) : Q :=
  match s with
  | HealthCheck => Js.literal 0.3
  | UserOperations => Js.literal 0.6
  | MqttOperations => Js.literal 0.8
  | ChannelOperations => 1
  end.

(** The Number a binary64 float of the Standard Library denotes. *)
Definition of_spec_float (f : spec_float) : Js.Num :=
  match f with
  | S754_zero _ => Js.Fin 0
  | S754_infinity s => Js.inf_of_sign s
  | S754_nan => Js.NaN
  | S754_finite s m e =>
      Js.Fin (Qred ((if s then -1 else 1) * inject_Z (Z.pos m) * Js.pow2 e))
  end.

(** The binary64 float of the Standard Library for [m * 2^e]. *)
Definition binary64 (m e : Z) : spec_float :=
  binary_normalize 53 1024 m e false.

#[global] Instance Q_eq_dec : EqDecision Q.
Proof. solve_decision. Defined.

#[global] Instance Num_eq_dec : EqDecision Js.Num.
Proof. solve_decision. Defined.

(** On the counters [a] and [b], the quotient [a / b], the percentage
    [(a / b) * 100], the sum and the difference of the model are those of
    the Standard Library's implementation of IEEE 754. *)
Definition agrees_with_SpecFloat (a b : Z) : bool :=
  let x := binary64 a 0 in
  let y := binary64 b 0 in
  bool_decide (of_spec_float (SFdiv 53 1024 x y)
               = Js.div (Js.of_Z a) (Js.of_Z b))
  && bool_decide (of_spec_float
                    (SFmul 53 1024 (SFdiv 53 1024 x y) (binary64 100 0))
                  = Js.mul (Js.div (Js.of_Z a) (Js.of_Z b)) (Js.of_Z 100))
  && bool_decide (of_spec_float (SFadd 53 1024 x y)
                  = Js.add (Js.of_Z a) (Js.of_Z b))
  && bool_decide (of_spec_float (SFsub 53 1024 x y)
                  = Js.sub (Js.of_Z a) (Js.of_Z b)).

(** The integers from [0] to [n - 1]. *)
Definition upto (n : nat) : list Z := Z.of_nat <$> seq 0 n.

(** Sample inputs. *)

(** A world with nothing to come: no reply, clock and draws at 0. *)
Definition quiet : World := mkWorld [] [] [] [] [].

(** A world whose server answers 503 to the first request. *)
Definition unavailable : World :=
  mkWorld [mkResponse 503 None 0] [] [] [] [].

(** Three calls, the second one on a key that is not declared. *)
Definition sample_calls : list Call :=
  [("GET /", true, 12); ("GET /nowhere", false, 3); ("GET /", false, 7)].

(** A server that answers the user steps with 200, 500, 200, in 20 ms of
    clock time each. *)
Definition failing_create : World :=
  mkWorld
    [mkResponse 200 (Some "[]") 15; mkResponse 500 None 15;
     mkResponse 200 (Some "{}") 15]
    [100; 120; 130; 150; 160; 180] [0.5%Q] [] [].

(** A server that answers the first two user steps in time and the third
    one after 250 ms. *)
Definition slow_lookup : World :=
  mkWorld
    [mkResponse 200 (Some "[]") 15; mkResponse 201 (Some "{}") 15;
     mkResponse 200 (Some "{}") 250]
    [100; 120; 130; 150; 160; 420] [0.5%Q] [] [].

(** The largest draw below 1 of which there is a double. *)
Definition last_draw : Q := 9007199254740991 # 9007199254740992.

(** The double the literal [0.6] denotes, as a draw. *)
Definition boundary_draw : Q := 5404319552844595 # 9007199254740992.

(** A world whose first draw selects the health check and whose second
    draw is the largest one. *)
Definition longest_pause : World := mkWorld [] [] [0%Q; last_draw] [] [].

(** ** Comparisons and two-decimal renderings *)

Lemma Qltb_lt (x y : Q) : Js.Qltb x y = true <-> (x < y)%Q.
Proof.
  unfold Js.Qltb. rewrite negb_true_iff, <- not_true_iff_false, Qle_bool_iff.
  split; [apply Qnot_le_lt | apply Qlt_not_le].
Qed.

Lemma Qltb_ge (x y : Q) : Js.Qltb x y = false <-> (y <= x)%Q.
Proof.
  unfold Js.Qltb. rewrite negb_false_iff. apply Qle_bool_iff.
Qed.

Lemma hundredths_close (q : Q) :
  (Qabs ((Js.hundredths q # 100) - q) <= 1 # 200)%Q.
Proof.
  destruct q as [a d]. unfold Js.hundredths. cbn [Qnum Qden].
  set (n := (2 * 100 * a + Z.pos d) / (2 * Z.pos d)).
  assert (H1 : 2 * Z.pos d * n <= 2 * 100 * a + Z.pos d)
    by (apply Z.mul_div_le; lia).
  assert (H2 : 2 * 100 * a + Z.pos d < 2 * Z.pos d * Z.succ n)
    by (apply Z.mul_succ_div_gt; lia).
  apply Qabs_Qle_condition. unfold Qle, Qminus, Qplus, Qopp. cbn [Qnum Qden].
  split; lia.
Qed.

(** The number a rendering shows is within half a hundredth of the number
    rendered. *)
Lemma fixed2_value_close (q : Q) :
  exists shown,
    Js.fixed2_value (Js.Fin q) = Js.Fin shown
    /\ (Qabs (shown - q) <= 1 # 200)%Q.
Proof.
  unfold Js.fixed2_value. destruct (Js.Qltb q 0) eqn:Hq; eexists;
    (split; [reflexivity|]); rewrite Qred_correct.
  - apply Qltb_lt in Hq.
    pose proof (hundredths_close (Qabs q)) as H.
    pose proof (Qabs_neg q (Qlt_le_weak _ _ Hq)) as Ha.
    apply Qabs_Qle_condition in H. apply Qabs_Qle_condition. lra.
  - apply hundredths_close.
Qed.

(** ** Rounding to the nearest double *)

Lemma pow2_pos e : (0 < Js.pow2 e)%Q.
Proof. apply Qpower_0_lt. reflexivity. Qed.

Lemma pow2_le a b : a <= b -> (Js.pow2 a <= Js.pow2 b)%Q.
Proof. intros H. apply Qpower_le_compat_l; [exact H|]. discriminate. Qed.

Lemma pow2_lt a b : a < b -> (Js.pow2 a < Js.pow2 b)%Q.
Proof. intros H. apply Qpower_lt_compat_l; [exact H|]. reflexivity. Qed.

Lemma pow2_lt_inv a b : (Js.pow2 a < Js.pow2 b)%Q -> a < b.
Proof. intros H. apply (Qpower_lt_compat_l_inv 2); [exact H|reflexivity]. Qed.

Lemma pow2_add a b : (Js.pow2 (a + b) == Js.pow2 a * Js.pow2 b)%Q.
Proof. apply Qpower_plus. discriminate. Qed.

Lemma pow2_Z k : 0 <= k -> (Js.pow2 k == inject_Z (2 ^ k))%Q.
Proof. intros H. unfold Js.pow2. rewrite Zpower_Qpower by exact H. reflexivity. Qed.

Lemma mag_spec (q : Q) :
  ~ (q == 0)%Q ->
  (Js.pow2 (Js.mag q - 1) <= Qabs q)%Q /\ (Qabs q < Js.pow2 (Js.mag q))%Q.
Proof.
  destruct q as [n d]. intros Hq.
  assert (Ha : 0 < Z.abs n).
  { assert (n <> 0); [|lia]. intros ->. apply Hq. reflexivity. }
  unfold Js.mag. cbn [Qnum Qden Qabs].
  set (a := Z.abs n) in *. set (la := Z.log2 a). set (lb := Z.log2 (Z.pos d)).
  pose proof (Z.log2_spec a Ha) as [Ha1 Ha2]. fold la in Ha1, Ha2.
  pose proof (Z.log2_spec (Z.pos d) ltac:(lia)) as [Hd1 Hd2].
  fold lb in Hd1, Hd2.
  pose proof (Z.log2_nonneg a) as Hla. fold la in Hla.
  pose proof (Z.log2_nonneg (Z.pos d)) as Hlb. fold lb in Hlb.
  assert (QA1 : (Js.pow2 la <= inject_Z a)%Q)
    by (rewrite pow2_Z by lia; rewrite <- Zle_Qle; exact Ha1).
  assert (QA2 : (inject_Z a < Js.pow2 (la + 1))%Q)
    by (rewrite pow2_Z by lia; rewrite <- Zlt_Qlt; exact Ha2).
  assert (QD1 : (Js.pow2 lb <= inject_Z (Z.pos d))%Q)
    by (rewrite pow2_Z by lia; rewrite <- Zle_Qle; exact Hd1).
  assert (QD2 : (inject_Z (Z.pos d) < Js.pow2 (lb + 1))%Q)
    by (rewrite pow2_Z by lia; rewrite <- Zlt_Qlt; exact Hd2).
  assert (QD : (0 < inject_Z (Z.pos d))%Q) by reflexivity.
  assert (E : (a # d == inject_Z a / inject_Z (Z.pos d))%Q) by apply Qmake_Qdiv.
  destruct (Qle_bool (Js.pow2 (la - lb)) (a # d)) eqn:Hb.
  - apply Qle_bool_iff in Hb. split.
    + replace (la - lb + 1 - 1) with (la - lb) by lia. exact Hb.
    + rewrite E. apply Qlt_shift_div_r; [exact QD|].
      apply Qlt_le_trans with (Js.pow2 (la + 1)); [exact QA2|].
      replace (la + 1) with ((la - lb + 1) + lb) by lia.
      rewrite pow2_add. apply Qmult_le_l; [apply pow2_pos|exact QD1].
  - assert (Hlt : (a # d < Js.pow2 (la - lb))%Q).
    { apply Qnot_le_lt. intros H. apply Qle_bool_iff in H. congruence. }
    split; [|exact Hlt].
    rewrite E. apply Qle_shift_div_l; [exact QD|].
    apply Qle_trans with (Js.pow2 la); [|exact QA1].
    replace la with ((la - lb - 1) + (lb + 1)) at 2 by lia.
    rewrite pow2_add. apply Qmult_le_l; [apply pow2_pos|].
    apply Qlt_le_weak, QD2.
Qed.

Lemma mag_unique (q : Q) (k : Z) :
  (Js.pow2 (k - 1) <= Qabs q)%Q -> (Qabs q < Js.pow2 k)%Q -> Js.mag q = k.
Proof.
  intros H1 H2.
  assert (Hq : ~ (q == 0)%Q).
  { intros E. rewrite E in H1. pose proof (pow2_pos (k - 1)). simpl in H1.
    apply (Qlt_not_le _ _ H). exact H1. }
  destruct (mag_spec q Hq) as [M1 M2].
  assert (Js.mag q - 1 < k)
    by (apply pow2_lt_inv; eapply Qle_lt_trans; eassumption).
  assert (k - 1 < Js.mag q)
    by (apply pow2_lt_inv; eapply Qle_lt_trans; eassumption).
  lia.
Qed.

Lemma mag_proper (p q : Q) : ~ (q == 0)%Q -> (p == q)%Q -> Js.mag p = Js.mag q.
Proof.
  intros Hq E. destruct (mag_spec q Hq) as [M1 M2].
  apply mag_unique; rewrite E; assumption.
Qed.

Lemma nearest_even_cases (y : Q) :
  let f := Qfloor y in
  (Js.nearest_even y = f
   /\ ((y - inject_Z f < 1 # 2)%Q
       \/ ((y - inject_Z f == 1 # 2)%Q /\ Z.even f = true)))
  \/ (Js.nearest_even y = f + 1
      /\ ((1 # 2 < y - inject_Z f)%Q
          \/ ((y - inject_Z f == 1 # 2)%Q /\ Z.even f = false))).
Proof.
  cbv zeta. unfold Js.nearest_even.
  destruct (y - inject_Z (Qfloor y) ?= 1 # 2)%Q eqn:E.
  - apply Qeq_alt in E. destruct (Z.even (Qfloor y)); [left|right]; auto.
  - apply Qlt_alt in E. left. auto.
  - apply Qgt_alt in E. right. auto.
Qed.

Lemma floor_bounds (y : Q) :
  (inject_Z (Qfloor y) <= y)%Q /\ (y < inject_Z (Qfloor y) + 1)%Q.
Proof.
  split; [apply Qfloor_le|].
  pose proof (Qlt_floor y) as H. rewrite inject_Z_plus in H. exact H.
Qed.

Lemma nearest_even_ge (m : Z) (y : Q) :
  (inject_Z m <= y)%Q -> m <= Js.nearest_even y.
Proof.
  intros H. apply Qfloor_resp_le in H. rewrite Qfloor_Z in H.
  destruct (nearest_even_cases y) as [[-> _]|[-> _]]; lia.
Qed.

Lemma nearest_even_le (n : Z) (y : Q) :
  (y <= inject_Z n)%Q -> Js.nearest_even y <= n.
Proof.
  intros H. pose proof (Qfloor_resp_le _ _ H) as Hf. rewrite Qfloor_Z in Hf.
  destruct (floor_bounds y) as [F1 F2].
  destruct (nearest_even_cases y) as [[-> _]|[-> C]]; [lia|].
  destruct (Z.eq_dec (Qfloor y) n) as [E|]; [|lia].
  exfalso. rewrite E in *. destruct C as [C|[C _]]; lra.
Qed.

Lemma nearest_even_mono (p q : Q) :
  (p <= q)%Q -> Js.nearest_even p <= Js.nearest_even q.
Proof.
  intros H. pose proof (Qfloor_resp_le _ _ H) as Hf.
  destruct (nearest_even_cases p) as [[-> _]|[-> Cp]];
    destruct (nearest_even_cases q) as [[-> Cq]|[-> _]]; try lia.
  destruct (Z.eq_dec (Qfloor p) (Qfloor q)) as [E|]; [|lia].
  exfalso. rewrite E in *.
  destruct Cp as [Cp|[Cp Op]], Cq as [Cq|[Cq Eq]]; try lra. congruence.
Qed.

Lemma nearest_even_error (y : Q) :
  (Qabs (inject_Z (Js.nearest_even y) - y) <= 1 # 2)%Q.
Proof.
  apply Qabs_Qle_condition. destruct (floor_bounds y) as [F1 F2].
  destruct (nearest_even_cases y) as [[-> C]|[-> C]];
    rewrite ?inject_Z_plus; change (inject_Z 1) with 1%Q;
    destruct C as [C|[C _]]; split; lra.
Qed.

Lemma nearest_even_proper (p q : Q) :
  (p == q)%Q -> Js.nearest_even p = Js.nearest_even q.
Proof.
  intros E. unfold Js.nearest_even. rewrite (Qfloor_comp _ _ E).
  assert (E2 : (p - inject_Z (Qfloor q) == q - inject_Z (Qfloor q))%Q)
    by (rewrite E; reflexivity).
  rewrite (Qcompare_comp _ _ E2 (1 # 2) (1 # 2) (Qeq_refl _)). reflexivity.
Qed.

Lemma round_value (q : Q) :
  ~ (q == 0)%Q ->
  (Js.round q
   == inject_Z (Js.nearest_even (q / Js.pow2 (Js.ulp_exp q)))
      * Js.pow2 (Js.ulp_exp q))%Q.
Proof.
  intros Hq. unfold Js.round.
  destruct (Qeq_bool q 0) eqn:E; [apply Qeq_bool_iff in E; contradiction|].
  apply Qred_correct.
Qed.

Lemma round_zero (q : Q) : (q == 0)%Q -> Js.round q = 0%Q.
Proof.
  intros E. unfold Js.round. apply Qeq_bool_iff in E. rewrite E. reflexivity.
Qed.

Lemma round_proper (p q : Q) : (p == q)%Q -> Js.round p = Js.round q.
Proof.
  intros E. unfold Js.round.
  destruct (Qeq_bool q 0) eqn:Hq.
  - apply Qeq_bool_iff in Hq. rewrite <- E in Hq. apply Qeq_bool_iff in Hq.
    rewrite Hq. reflexivity.
  - assert (Hq' : ~ (q == 0)%Q) by (intros H; apply Qeq_bool_iff in H; congruence).
    destruct (Qeq_bool p 0) eqn:Hp.
    { apply Qeq_bool_iff in Hp. rewrite E in Hp. contradiction. }
    unfold Js.ulp_exp. rewrite (mag_proper p q Hq' E).
    apply Qred_complete.
    rewrite (nearest_even_proper (p / _) (q / Js.pow2 (Z.max (Js.mag q - 53) (-1074))));
      [reflexivity|].
    rewrite E. reflexivity.
Qed.

(** A multiple of the unit in the last place of [q] that bounds [q] bounds
    its rounding. *)
Lemma round_grid (q : Q) (m : Z) :
  ~ (q == 0)%Q ->
  ((inject_Z m * Js.pow2 (Js.ulp_exp q) <= q)%Q ->
   (inject_Z m * Js.pow2 (Js.ulp_exp q) <= Js.round q)%Q)
  /\ ((q <= inject_Z m * Js.pow2 (Js.ulp_exp q))%Q ->
      (Js.round q <= inject_Z m * Js.pow2 (Js.ulp_exp q))%Q).
Proof.
  intros Hq. rewrite (round_value q Hq).
  pose proof (pow2_pos (Js.ulp_exp q)) as HP.
  set (P := Js.pow2 (Js.ulp_exp q)) in *. clearbody P.
  split; intros H.
  - apply Qmult_le_compat_r; [|apply Qlt_le_weak, HP].
    rewrite <- Zle_Qle. apply nearest_even_ge.
    apply Qle_shift_div_l; assumption.
  - apply Qmult_le_compat_r; [|apply Qlt_le_weak, HP].
    rewrite <- Zle_Qle. apply nearest_even_le.
    apply Qle_shift_div_r; assumption.
Qed.

Lemma round_error (q : Q) :
  ~ (q == 0)%Q ->
  (Qabs (Js.round q - q) <= Js.pow2 (Js.ulp_exp q) * (1 # 2))%Q.
Proof.
  intros Hq. rewrite (round_value q Hq).
  pose proof (pow2_pos (Js.ulp_exp q)) as HP.
  set (P := Js.pow2 (Js.ulp_exp q)) in *. clearbody P.
  pose proof (nearest_even_error (q / P)) as H.
  set (n := inject_Z (Js.nearest_even (q / P))) in *. clearbody n.
  assert (E : (n * P - q == (n - q / P) * P)%Q) by (field; lra).
  rewrite E, Qabs_Qmult, (Qabs_pos P) by lra.
  rewrite (Qmult_comm P). apply Qmult_le_compat_r; [exact H|lra].
Qed.

Lemma round_nonneg (q : Q) : (0 <= q)%Q -> (0 <= Js.round q)%Q.
Proof.
  intros H. destruct (Qeq_dec q 0) as [E|Hq].
  - rewrite (round_zero q E). apply Qle_refl.
  - pose proof (proj1 (round_grid q 0 Hq)) as G.
    rewrite Qmult_0_l in G. apply G, H.
Qed.

Lemma pow2_split (j e : Z) :
  e <= j -> (Js.pow2 j == inject_Z (2 ^ (j - e)) * Js.pow2 e)%Q.
Proof.
  intros H. rewrite <- pow2_Z by lia. rewrite <- pow2_add.
  replace (j - e + e) with j by lia. reflexivity.
Qed.

Lemma mag_le (q : Q) (k : Z) :
  ~ (q == 0)%Q -> (Qabs q <= Js.pow2 k)%Q -> Js.mag q <= k + 1.
Proof.
  intros Hq H. destruct (mag_spec q Hq) as [M1 _].
  assert (Js.mag q - 1 < k + 1); [|lia].
  apply pow2_lt_inv. eapply Qle_lt_trans; [exact M1|].
  eapply Qle_lt_trans; [exact H|]. apply pow2_lt. lia.
Qed.

Lemma mag_lt (q : Q) (k : Z) :
  ~ (q == 0)%Q -> (Qabs q < Js.pow2 k)%Q -> Js.mag q <= k.
Proof.
  intros Hq H. destruct (mag_spec q Hq) as [M1 _].
  assert (Js.mag q - 1 < k); [|lia].
  apply pow2_lt_inv. eapply Qle_lt_trans; eassumption.
Qed.

(** Rounding is monotone on the Numbers that are not negative. *)
Lemma round_mono (p q : Q) :
  (0 <= p)%Q -> (p <= q)%Q -> (Js.round p <= Js.round q)%Q.
Proof.
  intros H0 H.
  destruct (Qeq_dec p 0) as [E|Hp].
  { rewrite (round_zero p E). apply round_nonneg. lra. }
  assert (Hq : ~ (q == 0)%Q) by (intros E; apply Hp; lra).
  destruct (mag_spec p Hp) as [P1 P2]. destruct (mag_spec q Hq) as [Q1 Q2].
  rewrite (Qabs_pos p) in P1, P2 by lra.
  rewrite (Qabs_pos q) in Q1, Q2 by lra.
  assert (Hm : Js.mag p <= Js.mag q).
  { assert (Js.mag p - 1 < Js.mag q); [|lia].
    apply pow2_lt_inv. eapply Qle_lt_trans; [exact P1|].
    eapply Qle_lt_trans; eassumption. }
  destruct (Z.eq_dec (Js.ulp_exp p) (Js.ulp_exp q)) as [Ee|Ne].
  - rewrite (round_value p Hp), (round_value q Hq), Ee.
    pose proof (pow2_pos (Js.ulp_exp q)) as HP.
    apply Qmult_le_compat_r; [|apply Qlt_le_weak, HP].
    rewrite <- Zle_Qle. apply nearest_even_mono.
    apply Qmult_le_compat_r; [exact H|].
    apply Qlt_le_weak, Qinv_lt_0_compat, HP.
  - assert (He : Js.ulp_exp p < Js.ulp_exp q /\ Js.ulp_exp q = Js.mag q - 53
                 /\ Js.mag p < Js.mag q)
      by (unfold Js.ulp_exp in *; lia).
    destruct He as (He & Eq & Hm').
    apply Qle_trans with (Js.pow2 (Js.mag q - 1)).
    + rewrite (pow2_split (Js.mag q - 1) (Js.ulp_exp p)) by lia.
      apply (proj2 (round_grid p _ Hp)).
      rewrite <- pow2_split by lia.
      apply Qle_trans with (Js.pow2 (Js.mag p)); [lra|]. apply pow2_le. lia.
    + rewrite (pow2_split (Js.mag q - 1) (Js.ulp_exp q)) by lia.
      apply (proj1 (round_grid q _ Hq)).
      rewrite <- pow2_split by lia. exact Q1.
Qed.

Lemma round64_finite (q : Q) :
  (Qabs (Js.round q) < Js.pow2 1024)%Q -> Js.round64 q = Js.Fin (Js.round q).
Proof.
  intros H. unfold Js.round64.
  destruct (Qle_bool (Js.pow2 1024) (Qabs (Js.round q))) eqn:E; [|reflexivity].
  apply Qle_bool_iff in E. exfalso. apply (Qlt_not_le _ _ H), E.
Qed.

Lemma round64_proper (p q : Q) : (p == q)%Q -> Js.round64 p = Js.round64 q.
Proof. intros E. unfold Js.round64. rewrite (round_proper p q E). reflexivity. Qed.

(** Between two doubles that are not negative, an exact result is rounded
    to a double between them. *)
Lemma round64_within (lo hi q : Q) :
  (0 <= lo)%Q -> (lo <= q)%Q -> (q <= hi)%Q ->
  (Js.round lo == lo)%Q -> (Js.round hi == hi)%Q -> (hi < Js.pow2 1024)%Q ->
  Js.round64 q = Js.Fin (Js.round q)
  /\ (lo <= Js.round q)%Q /\ (Js.round q <= hi)%Q.
Proof.
  intros H0 Hlo Hhi Rlo Rhi Hmax.
  pose proof (round_mono lo q H0 Hlo) as M1.
  pose proof (round_mono q hi ltac:(lra) Hhi) as M2.
  split; [|lra].
  apply round64_finite. rewrite Qabs_pos by lra. lra.
Qed.

(** The rounding error is at most half a unit in the last place. *)
Lemma round_close (q : Q) (k : Z) :
  -1022 <= k -> (Qabs q <= Js.pow2 k)%Q ->
  (Qabs (Js.round q - q) <= Js.pow2 (k - 53))%Q.
Proof.
  intros Hk H. destruct (Qeq_dec q 0) as [E|Hq].
  - rewrite (round_zero q E), E. simpl. apply Qlt_le_weak, pow2_pos.
  - eapply Qle_trans; [apply round_error, Hq|].
    pose proof (mag_le q k Hq H) as Hm.
    assert (He : Js.ulp_exp q <= k - 52) by (unfold Js.ulp_exp; lia).
    apply pow2_le in He.
    replace (k - 52) with ((k - 53) + 1) in He by lia.
    rewrite pow2_add in He. change (Js.pow2 1) with 2%Q in He.
    pose proof (pow2_pos (k - 53)).
    set (P := Js.pow2 (Js.ulp_exp q)) in *. set (R := Js.pow2 (k - 53)) in *.
    clearbody P R. lra.
Qed.

Lemma of_Z_div (a b : Z) :
  b <> 0 ->
  Js.div (Js.of_Z a) (Js.of_Z b) = Js.round64 (inject_Z a / inject_Z b).
Proof.
  intros Hb. unfold Js.div, Js.of_Z.
  destruct (Qeq_bool (inject_Z b) 0) eqn:E; [|reflexivity].
  apply Qeq_bool_iff in E. unfold Qeq in E. simpl in E. lia.
Qed.

(** [(a / b) * 100] on two counters is a Number within [2^-45] of the
    exact percentage. *)
Lemma percent_close (a b : Z) :
  0 <= a <= b -> 0 < b ->
  exists p,
    Js.mul (Js.div (Js.of_Z a) (Js.of_Z b)) (Js.of_Z 100) = Js.Fin p
    /\ (0 <= p)%Q /\ (p <= 100)%Q
    /\ (Qabs (p - 100 * (inject_Z a / inject_Z b)) <= 1 # 2 ^ 45)%Q.
Proof.
  intros Ha Hb. rewrite of_Z_div by lia.
  set (x := (inject_Z a / inject_Z b)%Q).
  assert (Hb' : (0 < inject_Z b)%Q) by (rewrite <- (Zlt_Qlt 0); exact Hb).
  assert (Hx0 : (0 <= x)%Q).
  { apply Qle_shift_div_l; [exact Hb'|]. rewrite Qmult_0_l.
    rewrite <- (Zle_Qle 0). lia. }
  assert (Hx1 : (x <= 1)%Q).
  { apply Qle_shift_div_r; [exact Hb'|]. rewrite Qmult_1_l.
    rewrite <- Zle_Qle. lia. }
  destruct (round64_within 0 1 x) as (-> & Hd0 & Hd1);
    try assumption; try reflexivity; try apply Qle_refl.
  pose proof (round_close x 0 ltac:(lia)) as Cx.
  rewrite Qabs_pos in Cx by exact Hx0. specialize (Cx Hx1).
  set (d := Js.round x) in *. clearbody d.
  unfold Js.mul, Js.of_Z.
  destruct (round64_within 0 100 (d * inject_Z 100)) as (-> & Hp0 & Hp1);
    try reflexivity; try apply Qle_refl.
  { change (inject_Z 100) with 100%Q. lra. }
  { change (inject_Z 100) with 100%Q. lra. }
  pose proof (round_close (d * inject_Z 100) 7 ltac:(lia)) as Cy.
  change (inject_Z 100) with 100%Q in *.
  rewrite Qabs_pos in Cy by lra.
  assert (H128 : (d * 100 <= Js.pow2 7)%Q)
    by (change (Js.pow2 7) with 128%Q; lra).
  specialize (Cy H128).
  set (p := Js.round (d * 100)) in *. clearbody p.
  exists p. split; [reflexivity|]. split; [exact Hp0|]. split; [exact Hp1|].
  change (Js.pow2 (0 - 53)) with (1 # 9007199254740992)%Q in Cx.
  change (Js.pow2 (7 - 53)) with (1 # 70368744177664)%Q in Cy.
  change (2 ^ 45)%positive with 35184372088832%positive.
  apply Qabs_Qle_condition in Cx. apply Qabs_Qle_condition in Cy.
  apply Qabs_Qle_condition. clearbody x. lra.
Qed.

(** What an iteration pauses for: a draw of [0,1) times [c], plus a half. *)
Lemma pause_is_within (r c : Q) :
  unit_draw r -> (0 <= c)%Q -> (Js.round c == c)%Q ->
  (Js.round (c + (1 # 2)) == c + (1 # 2))%Q ->
  (c + (1 # 2) < Js.pow2 1024)%Q ->
  pause_within (1 # 2) (c + (1 # 2))
    (Js.add (Js.mul (Js.Fin r) (Js.Fin c)) (Js.Fin (Js.literal 0.5))).
Proof.
  intros [H0 H1] Hc Rc Rhi Hmax. unfold Js.mul.
  assert (Hrc : (0 <= r * c /\ r * c <= c)%Q) by (split; nra).
  destruct (round64_within 0 c (r * c)) as (-> & Hv0 & Hv1);
    try tauto; try reflexivity; try apply Qle_refl; [lra|].
  set (v := Js.round (r * c)) in *. clearbody v.
  unfold Js.add. change (Js.literal 0.5) with (1 # 2)%Q.
  destruct (round64_within (1 # 2) (c + (1 # 2)) (v + (1 # 2)))
    as (-> & Hp0 & Hp1); try assumption; try reflexivity; try lra.
  exists (Js.round (v + (1 # 2))). split; [reflexivity|]. split; assumption.
Qed.

(** The arithmetic of the model is the one of the Standard Library's
    IEEE 754 on all pairs of counters below 64, on larger samples, on the
    sums that the pauses and the threshold literals of the scripts need, on
    ties, and where a result underflows or overflows. *)
Example arithmetic_agrees_with_SpecFloat :
  forallb (fun a => forallb (agrees_with_SpecFloat a) (upto 64)) (upto 64)
  = true
  /\ agrees_with_SpecFloat 23 160 = true
  /\ agrees_with_SpecFloat 3 40 = true
  /\ agrees_with_SpecFloat 9007199254740991 3 = true
  /\ of_spec_float
       (SFadd 53 1024
          (SFmul 53 1024 (binary64 9007199254740991 (-53)) (binary64 2 0))
          (binary64 1 (-1)))
     = Js.add (Js.mul (Js.Fin last_draw) (Js.Fin 2)) (Js.Fin (Js.literal 0.5))
  /\ of_spec_float (SFdiv 53 1024 (binary64 3 0) (binary64 10 0))
     = Js.Fin (Js.literal 0.3)
  /\ of_spec_float (SFdiv 53 1024 (binary64 6 0) (binary64 10 0))
     = Js.Fin (Js.literal 0.6)
  /\ of_spec_float (SFdiv 53 1024 (binary64 8 0) (binary64 10 0))
     = Js.Fin (Js.literal 0.8)
  /\ of_spec_float (SFdiv 53 1024 (binary64 1 0) (binary64 10 0))
     = Js.Fin (Js.literal 0.1)
  /\ of_spec_float (binary64 3 (-1075)) = Js.round64 (3 # 2 ^ 1075)
  /\ of_spec_float (binary64 1 (-1075)) = Js.round64 (1 # 2 ^ 1075)
  /\ of_spec_float (binary64 9007199254740993 0)
     = Js.round64 9007199254740993
  /\ of_spec_float (binary64 9007199254740995 0)
     = Js.round64 9007199254740995
  /\ of_spec_float (binary64 (2 ^ 54 - 1) 970) = Js.round64 ((2 ^ 54 - 1) * 2 ^ 970)
  /\ of_spec_float (binary64 (-(2 ^ 54 - 1)) 970)
     = Js.round64 (- ((2 ^ 54 - 1) * 2 ^ 970)).
Proof. vm_compute. repeat split. Qed.

(** ** Coverage accumulation *)

Example toFixed2_samples :
  Js.toFixed2 (Js.Fin 3.125) = "3.13"
  /\ Js.toFixed2 (Js.Fin (-0.001)) = "-0.00"
  /\ Js.toFixed2 (Js.div (Js.of_Z 0) (Js.of_Z 0)) = "NaN"
  /\ Coverage.percent2 3 7 = "42.86"
  /\ Coverage.percent2 7 7 = "100.00".
Proof. repeat split; reflexivity. Qed.

(** Renderings on which the rounding of the quotient shows. *)
Example rounded_quotients_rendered :
  Coverage.percent2 23 160 = "14.37"
  /\ Coverage.ratio2 3 40 = "0.07"
  /\ Coverage.percent2 1 3 = "33.33"
  /\ Coverage.ratio2 1 8 = "0.13".
Proof. vm_compute. repeat split. Qed.

Example sample_calls_entry :
  Coverage.endpointCoverage (run_calls sample_calls (Coverage.init quiet))
    !! "GET /" = Some (mkEntry 2 1 1 19)
  /\ Coverage.endpointHits (run_calls sample_calls (Coverage.init quiet)) = 3.
Proof. split; reflexivity. Qed.

Example failing_create_run :
  let st := Coverage.testUserOperations (Coverage.init failing_create) in
  Coverage.endpointCoverage st !! "GET /user/users" = Some (mkEntry 1 1 0 20)
  /\ Coverage.endpointCoverage st !! "POST /user/users"
     = Some (mkEntry 1 0 1 20)
  /\ Coverage.endpointCoverage st !! "GET /user/users/:id" = Some entry0
  /\ Coverage.errorRate st = [1]
  /\ length (sent (Coverage.world st)) = 2%nat.
Proof. repeat split; reflexivity. Qed.

Example sample_coverage_summary :
  (coverage_artifact
     (Coverage.handleSummary (summary_of [])
        (run_calls sample_calls (Coverage.init quiet))).1)
  ≫= (fun r => Some (Coverage.summary r))
  = Some (Coverage.mkCoverageSummary 7 1 "14.29").
Proof. reflexivity. Qed.

Lemma alter_absent {A} (f : A -> A) (k : string) (m : gmap string A) :
  m !! k = None -> alter f k m = m.
Proof.
  intros Hk. apply map_eq. intros j. rewrite lookup_alter.
  case_decide; subst; rewrite ?Hk; reflexivity.
Qed.

Lemma trackEndpoint_coverage endpoint s rt st :
  Coverage.endpointCoverage (Coverage.trackEndpoint endpoint s rt st)
  = alter (bump s rt) endpoint (Coverage.endpointCoverage st).
Proof.
  unfold Coverage.trackEndpoint, Coverage.has_endpoint.
  destruct (Coverage.endpointCoverage st !! endpoint) as [e|] eqn:He.
  - unfold Coverage.track_entry. destruct s; simpl;
      apply map_eq; intros j;
      (destruct (decide (endpoint = j)) as [<-|Hne];
       [rewrite !lookup_alter_eq, He | rewrite !lookup_alter_ne by done]);
      reflexivity.
  - rewrite (alter_absent _ _ _ He).
    destruct (inherited endpoint); [|reflexivity].
    unfold Coverage.track_entry.
    destruct s; simpl; rewrite !alter_absent;
      rewrite ?lookup_alter_eq, ?He; reflexivity.
Qed.

Lemma bump_ok s rt e : 0 <= rt -> entry_ok e -> entry_ok (bump s rt e).
Proof.
  unfold entry_ok. intros Hrt (Hsum & Hh & Hs & He & Ht).
  destruct s; simpl; lia.
Qed.

Lemma alter_bump_ok cov key s rt :
  0 <= rt -> coverage_ok cov -> coverage_ok (alter (bump s rt) key cov).
Proof.
  intros Hrt Hcov j e. rewrite lookup_alter. case_decide as Hj.
  - subst j. destruct (cov !! key) as [e0|] eqn:He0; simpl; [|discriminate].
    intros [= <-]. apply bump_ok; eauto.
  - apply Hcov.
Qed.

Lemma endpointCoverage0_lookup key e :
  Coverage.endpointCoverage0 !! key = Some e ->
  key ∈ Coverage.declared_keys /\ e = entry0.
Proof.
  intros H. apply elem_of_list_to_map_2 in H.
  apply list_elem_of_fmap in H as (k & [= -> ->] & Hk). auto.
Qed.

Lemma endpointCoverage0_declared key :
  key ∈ Coverage.declared_keys ->
  Coverage.endpointCoverage0 !! key = Some entry0.
Proof.
  intros H. apply elem_of_list_to_map_1.
  - apply (bool_decide_unpack _). vm_compute. exact I.
  - apply list_elem_of_fmap. eauto.
Qed.

Lemma init_ok w : coverage_ok (Coverage.endpointCoverage (Coverage.init w)).
Proof.
  intros key e H. apply endpointCoverage0_lookup in H as [_ ->].
  unfold entry_ok; simpl; lia.
Qed.

Lemma run_calls_snoc calls c st :
  run_calls (calls ++ [c]) st
  = Coverage.trackEndpoint c.1.1 c.1.2 c.2 (run_calls calls st).
Proof. unfold run_calls. rewrite foldl_app. reflexivity. Qed.

Lemma run_calls_ok calls st :
  Forall (fun c => 0 <= call_time c) calls ->
  coverage_ok (Coverage.endpointCoverage st) ->
  coverage_ok (Coverage.endpointCoverage (run_calls calls st)).
Proof.
  intros Hcalls. revert st.
  induction Hcalls as [|c calls Hc _ IH]; intros st Hst; [exact Hst|].
  simpl. apply IH. rewrite trackEndpoint_coverage.
  apply alter_bump_ok; assumption.
Qed.

(** C1.  Along every sequence of [trackEndpoint] calls with non-negative
    response times, started on the initial table, every coverage entry
    satisfies [hits = success + errors] with all four fields non-negative
    after each call; and a call on a key of the table adds 1 to [hits], the
    response time to [totalResponseTime], and 1 to exactly one of [success]
    and [errors]. *)
Theorem trackEndpoint_keeps_entries_balanced :
  forall (w : World) (calls : list Call),
    Forall (fun c => 0 <= call_time c) calls ->
    (forall n, coverage_ok
                 (Coverage.endpointCoverage
                    (run_calls (take n calls) (Coverage.init w))))
    /\
    (forall st key ok rt e,
        Coverage.endpointCoverage st !! key = Some e ->
        exists e',
          Coverage.endpointCoverage (Coverage.trackEndpoint key ok rt st)
            !! key = Some e'
          /\ hits e' = hits e + 1
          /\ totalResponseTime e' = totalResponseTime e + rt
          /\ (if ok
              then success e' = success e + 1 /\ errors e' = errors e
              else success e' = success e /\ errors e' = errors e + 1)).
Proof.
  intros w calls Hcalls. split.
  - intros n. apply run_calls_ok; [|apply init_ok].
    apply Forall_take. exact Hcalls.
  - intros st key ok rt e He. exists (bump ok rt e).
    rewrite trackEndpoint_coverage, lookup_alter_eq, He.
    destruct ok; simpl; auto.
Qed.

Lemma sum_permutation (l1 l2 : list Z) :
  l1 ≡ₚ l2 -> foldr Z.add 0 l1 = foldr Z.add 0 l2.
Proof. induction 1; simpl; lia. Qed.

Lemma sum_hits_insert (m : gmap string Entry) key e :
  m !! key = None -> sum_hits (<[key:=e]> m) = hits e + sum_hits m.
Proof.
  intros Hk. unfold sum_hits.
  rewrite (sum_permutation _ (hits <$> ((key, e) :: map_to_list m).*2)).
  - reflexivity.
  - rewrite (map_to_list_insert m key e Hk). reflexivity.
Qed.

Lemma sum_hits_alter (m : gmap string Entry) key f e :
  m !! key = Some e ->
  sum_hits (alter f key m) = sum_hits m - hits e + hits (f e).
Proof.
  intros Hk. rewrite <- (insert_delete_id m key e Hk) at 1 2.
  rewrite alter_insert_eq.
  rewrite !sum_hits_insert by apply lookup_delete_eq. lia.
Qed.

Lemma endpointHits_trackEndpoint key ok rt st :
  Coverage.endpointHits (Coverage.trackEndpoint key ok rt st)
  = Coverage.endpointHits st + 1.
Proof.
  unfold Coverage.trackEndpoint, Coverage.track_entry.
  destruct (Coverage.has_endpoint st key), ok; reflexivity.
Qed.

Lemma endpointResponseTime_trackEndpoint key ok rt st :
  Coverage.endpointResponseTime (Coverage.trackEndpoint key ok rt st)
  = (Coverage.endpointResponseTime st ++ [rt])%list.
Proof.
  unfold Coverage.trackEndpoint, Coverage.track_entry.
  destruct (Coverage.has_endpoint st key), ok; reflexivity.
Qed.

Lemma tracked_init w : tracked (Coverage.init w).
Proof.
  split.
  - intros key. split.
    + intros [e He]. apply endpointCoverage0_lookup in He. tauto.
    + intros Hk. exists entry0. apply endpointCoverage0_declared, Hk.
  - vm_compute. discriminate.
Qed.

Lemma tracked_trackEndpoint key ok rt st :
  tracked st -> tracked (Coverage.trackEndpoint key ok rt st).
Proof.
  intros [Hkeys Hsum]. split.
  - intros j. rewrite trackEndpoint_coverage, lookup_alter.
    case_decide; [subst j|]; rewrite <- Hkeys; [|reflexivity].
    rewrite fmap_is_Some. reflexivity.
  - rewrite trackEndpoint_coverage, endpointHits_trackEndpoint.
    destruct (Coverage.endpointCoverage st !! key) as [e|] eqn:He.
    + rewrite (sum_hits_alter _ _ _ _ He). simpl. lia.
    + rewrite (alter_absent _ _ _ He). lia.
Qed.

Lemma tracked_run_calls calls st : tracked st -> tracked (run_calls calls st).
Proof.
  revert st. induction calls as [|c calls IH]; intros st Hst; [exact Hst|].
  simpl. apply IH, tracked_trackEndpoint, Hst.
Qed.

(** C9.  In every state reached by [trackEndpoint] calls, a call with a key
    that is not one of the seven declared keys leaves the whole coverage
    table unchanged, adds 1 to [endpoint_hits] and one sample to
    [endpoint_response_time]; afterwards the global hit count is strictly
    above the sum of the per-endpoint hits. *)
Theorem trackEndpoint_undeclared_key :
  forall (w : World) (calls : list Call) (key : string) (ok : bool) (rt : Z),
    key ∉ Coverage.declared_keys ->
    let st := run_calls calls (Coverage.init w) in
    let st' := Coverage.trackEndpoint key ok rt st in
    Coverage.endpointCoverage st' = Coverage.endpointCoverage st
    /\ Coverage.endpointHits st' = Coverage.endpointHits st + 1
    /\ Coverage.endpointResponseTime st'
       = (Coverage.endpointResponseTime st ++ [rt])%list
    /\ sum_hits (Coverage.endpointCoverage st') < Coverage.endpointHits st'.
Proof.
  intros w calls key ok rt Hkey st st'.
  destruct (tracked_run_calls calls _ (tracked_init w)) as [Hkeys Hsum].
  fold st in Hkeys, Hsum.
  assert (Hnone : Coverage.endpointCoverage st !! key = None).
  { apply eq_None_not_Some. rewrite Hkeys. exact Hkey. }
  assert (Hcov : Coverage.endpointCoverage st' = Coverage.endpointCoverage st).
  { unfold st'. rewrite trackEndpoint_coverage. apply alter_absent, Hnone. }
  repeat split.
  - exact Hcov.
  - apply endpointHits_trackEndpoint.
  - apply endpointResponseTime_trackEndpoint.
  - rewrite Hcov. unfold st'. rewrite endpointHits_trackEndpoint. lia.
Qed.

(** ** The coverage report *)

Lemma foldl_report_step_lookup (l : list (string * Entry)) acc key :
  NoDup l.*1 ->
  foldl Coverage.report_step acc l !! key
  = match (list_to_map l : gmap string Entry) !! key with
    | Some e => Some (Coverage.report_of e)
    | None => acc !! key
    end.
Proof.
  revert acc. induction l as [|[k0 e0] l IH]; intros acc Hnd; [reflexivity|].
  apply NoDup_cons in Hnd as [Hk0 Hnd]. simpl.
  rewrite (IH _ Hnd). unfold Coverage.report_step at 1. simpl.
  destruct (decide (k0 = key)) as [->|Hne].
  - rewrite lookup_insert_eq.
    rewrite (not_elem_of_list_to_map_1 _ _ Hk0), lookup_insert_eq.
    reflexivity.
  - rewrite (lookup_insert_ne (list_to_map l)) by done.
    destruct (list_to_map l !! key); [reflexivity|].
    apply lookup_insert_ne. done.
Qed.

Lemma report_endpoints_fmap data now st :
  Coverage.report_endpoints (Coverage.coverage_report data now st)
  = Coverage.report_of <$> Coverage.endpointCoverage st.
Proof.
  apply map_eq. intros key. simpl.
  rewrite foldl_report_step_lookup by apply NoDup_fst_map_to_list.
  rewrite list_to_map_to_list, lookup_fmap.
  destruct (Coverage.endpointCoverage st !! key); reflexivity.
Qed.

Lemma length_filter_snd {A B} (P : B -> Prop) `{forall x, Decision (P x)}
    (l : list (A * B)) :
  length (filter P l.*2) = length (filter (fun kv => P kv.2) l).
Proof.
  induction l as [|[a b] l IH]; [reflexivity|].
  rewrite fmap_cons, !filter_cons. simpl.
  destruct (decide (P b)); simpl; rewrite IH; reflexivity.
Qed.

Lemma count_tested_entries st :
  length (filter (fun stats => 0 < hits stats) (Coverage.entries st))
  = count_tested (Coverage.endpointCoverage st).
Proof.
  unfold count_tested, Coverage.entries.
  rewrite length_filter_snd, map_filter_alt, map_size_list_to_map;
    [reflexivity|].
  eapply sublist_NoDup;
    [apply (NoDup_fst_map_to_list (Coverage.endpointCoverage st))|].
  apply fmap_sublist, sublist_filter.
Qed.

Lemma length_keys st :
  length (Coverage.keys st) = size (Coverage.endpointCoverage st).
Proof. unfold Coverage.keys. rewrite length_fmap. apply length_map_to_list. Qed.

Lemma count_tested_le_size (cov : gmap string Entry) :
  (count_tested cov <= size cov)%nat.
Proof. unfold count_tested. apply map_subseteq_size, map_filter_subseteq. Qed.

(** The strings [((tested / 7) * 100).toFixed(2)] can be. *)
Lemma percent2_of_seven (tested : nat) :
  (tested <= 7)%nat ->
  [ "0.00"; "14.29"; "28.57"; "42.86"; "57.14"; "71.43"; "85.71"; "100.00" ]
    !! tested
  = Some (Coverage.percent2 (Z.of_nat tested) 7).
Proof.
  intros H.
  do 8 (destruct tested as [|tested]; [vm_compute; reflexivity|]). lia.
Qed.

(** C2.  For every coverage state, the coverage artifact of [handleSummary]
    reports [coveragePercentage] as the number of endpoints of the table
    with [hits > 0] over the number of all its endpoints, times 100: it is
    [((tested / total) * 100).toFixed(2)], a two-decimal rendering that
    shows a number within half a hundredth (and the rounding of the two
    operations, less than [2^-45]) of the exact percentage, and on the
    table of the seven declared endpoints it is ["0.00"], ["14.29"],
    ["28.57"], ["42.86"], ["57.14"], ["71.43"], ["85.71"] or ["100.00"] for
    0 to 7 endpoints tested.  The report has exactly the endpoints of the
    table, and one with zero hits is reported with [hits = 0],
    [tested = false] and the explicit zeros ["0"] for [successRate] and
    [avgResponseTime]. *)
Theorem handleSummary_reports_coverage :
  forall (data : SummaryData) (st : Coverage.State),
    let cov := Coverage.endpointCoverage st in
    let tested := Z.of_nat (count_tested cov) in
    let total := Z.of_nat (size cov) in
    exists report,
      coverage_artifact (Coverage.handleSummary data st).1 = Some report
      /\ Coverage.totalEndpoints (Coverage.summary report) = total
      /\ Coverage.testedEndpoints (Coverage.summary report) = tested
      /\ Coverage.coveragePercentage (Coverage.summary report)
         = Js.toFixed2
             (Js.mul (Js.div (Js.of_Z tested) (Js.of_Z total)) (Js.of_Z 100))
      /\ (0 < total ->
          exists p shown,
            Coverage.coveragePercentage (Coverage.summary report)
            = Js.toFixed2 (Js.Fin p)
            /\ Js.fixed2_value (Js.Fin p) = Js.Fin shown
            /\ (Qabs (shown - p) <= 1 # 200)%Q
            /\ (Qabs (p - 100 * (inject_Z tested / inject_Z total))
                <= 1 # 2 ^ 45)%Q)
      /\ (total = 7 ->
          [ "0.00"; "14.29"; "28.57"; "42.86"; "57.14"; "71.43"; "85.71";
            "100.00" ] !! count_tested cov
          = Some (Coverage.coveragePercentage (Coverage.summary report)))
      /\ dom (Coverage.report_endpoints report) = dom cov
      /\ (forall key e,
            cov !! key = Some e ->
            hits e = 0 ->
            Coverage.report_endpoints report !! key
            = Some (Coverage.mkEndpointReport 0 "0" "0" (errors e) false)).
Proof.
  intros data st cov tested total.
  exists (Coverage.coverage_report data (hd 0 (clock (Coverage.world st))) st).
  split; [reflexivity|].
  rewrite report_endpoints_fmap.
  cbn [Coverage.coverage_report Coverage.summary Coverage.totalEndpoints
       Coverage.testedEndpoints Coverage.coveragePercentage].
  rewrite count_tested_entries, length_keys. fold cov tested total.
  pose proof (count_tested_le_size cov) as Hle.
  split; [reflexivity|]. split; [reflexivity|]. split; [reflexivity|].
  split; [|split; [|split]].
  - intros Htotal. unfold Coverage.percent2.
    destruct (percent_close tested total) as (p & -> & _ & _ & Hp);
      [subst tested total; lia | exact Htotal |].
    destruct (fixed2_value_close p) as (shown & Hshown & Hclose).
    exists p, shown. auto.
  - intros Hseven. rewrite Hseven.
    apply percent2_of_seven. subst tested total. lia.
  - apply dom_fmap_L.
  - intros key e He Hhits. rewrite lookup_fmap, He. simpl.
    unfold Coverage.report_of. rewrite Hhits. reflexivity.
Qed.

(** ** Scenario selection *)

Lemma filter_agree {A} (P1 P2 : A -> Prop) `{forall x, Decision (P1 x)}
    `{forall x, Decision (P2 x)} (l : list A) :
  (forall x, x ∈ l -> P1 x <-> P2 x) -> filter P1 l = filter P2 l.
Proof.
  induction l as [|x l IH]; intros Hl; [reflexivity|].
  rewrite !filter_cons.
  assert (Hx : P1 x <-> P2 x) by (apply Hl; left).
  rewrite IH by (intros y Hy; apply Hl; right; exact Hy).
  destruct (decide (P1 x)), (decide (P2 x)); tauto.
Qed.

Lemma count_range (a b i n : nat) :
  length (filter (fun k => a <= k < b)%nat (seq i n))
  = (Nat.min b (i + n) - Nat.max a i)%nat.
Proof.
  revert i. induction n as [|n IH]; intros i.
  - simpl. lia.
  - cbn [seq]. rewrite filter_cons.
    destruct (decide (a <= i < b)%nat); cbn [length]; rewrite IH; lia.
Qed.

Lemma Zpos_of_nat (n : nat) : (0 < n)%nat -> Z.pos (Pos.of_nat n) = Z.of_nat n.
Proof.
  destruct n; [lia|]. intros _.
  rewrite <- Pos.of_nat_succ, Zpos_P_of_succ_nat. lia.
Qed.

Lemma Qltb_grid (n k : nat) (a b : positive) :
  (0 < n)%nat ->
  Js.Qltb (grid_point n k) (Z.pos a # b) = true
  <-> Z.of_nat k * Z.pos b < Z.pos a * Z.of_nat n.
Proof.
  intros Hn. rewrite Qltb_lt. unfold grid_point, Qlt. cbn [Qnum Qden].
  rewrite (Zpos_of_nat n Hn). reflexivity.
Qed.

(** The doubles the threshold literals of the two dispatchers denote:
    those of the comprehensive script are the numbers written, those of the
    basic script are not. *)
Lemma threshold_literals :
  Js.literal 0.25 = (1 # 4)%Q
  /\ Js.literal 0.5 = (1 # 2)%Q
  /\ Js.literal 0.75 = (3 # 4)%Q
  /\ Js.literal 0.3 = (5404319552844595 # 18014398509481984)%Q
  /\ Js.literal 0.6 = (5404319552844595 # 9007199254740992)%Q
  /\ Js.literal 0.8 = (3602879701896397 # 4503599627370496)%Q.
Proof. vm_compute. repeat split. Qed.

Ltac literals :=
  destruct threshold_literals as (L25 & L50 & L75 & L3 & L6 & L8);
  rewrite ?L25, ?L50, ?L75, ?L3, ?L6, ?L8; clear L25 L50 L75 L3 L6 L8.

Lemma coverage_select_grid (m k : nat) (s : Scenario) :
  (0 < m)%nat -> (k < 4 * m)%nat ->
  Coverage.select (grid_point (4 * m) k) = s <-> grid_range m s k.
Proof.
  intros Hm Hk. unfold Coverage.select, grid_range. literals.
  assert (Hn : (0 < 4 * m)%nat) by lia.
  pose proof (Qltb_grid (4 * m) k 1 4 Hn) as H1.
  pose proof (Qltb_grid (4 * m) k 1 2 Hn) as H2.
  pose proof (Qltb_grid (4 * m) k 3 4 Hn) as H3.
  destruct (Js.Qltb (grid_point (4 * m) k) (1 # 4));
    destruct (Js.Qltb (grid_point (4 * m) k) (1 # 2));
    destruct (Js.Qltb (grid_point (4 * m) k) (3 # 4));
    destruct s; simpl; split; intros H; try discriminate; try reflexivity;
    try lia.
Qed.

(** On a grid of [4 m] equidistant draws, the share of the draws the
    comprehensive dispatcher sends to [s] is the declared share of [s]. *)
Lemma grid_frequency (m : nat) (s : Scenario) :
  (0 < m)%nat ->
  (frequency Coverage.select s (4 * m) == share comprehensive_weight s)%Q.
Proof.
  intros Hm. unfold frequency, selected.
  rewrite (filter_agree _ (grid_range m s)).
  - unfold grid_range. rewrite count_range.
    unfold Qeq. cbn [Qnum Qden]. rewrite Zpos_of_nat by lia.
    destruct s; vm_compute share; cbn [Qnum Qden position]; lia.
  - intros k Hk. apply elem_of_seq in Hk.
    apply coverage_select_grid; lia.
Qed.

(** Case analysis on the three threshold tests of a dispatcher. *)
Ltac thresholds r a b c :=
  let E1 := fresh "E" in
  let E2 := fresh "E" in
  let E3 := fresh "E" in
  destruct (Js.Qltb r a) eqn:E1;
  [apply Qltb_lt in E1
  |apply Qltb_ge in E1; destruct (Js.Qltb r b) eqn:E2;
   [apply Qltb_lt in E2
   |apply Qltb_ge in E2; destruct (Js.Qltb r c) eqn:E3;
    [apply Qltb_lt in E3 | apply Qltb_ge in E3]]].

Ltac interval_of_selection :=
  intros <-; unfold in_interval; vm_compute start; vm_compute share; lra.

Ltac selection_of_interval s :=
  unfold in_interval; destruct s; vm_compute start; vm_compute share;
  intros [? ?]; try reflexivity; exfalso; lra.

(** The interval of the draws the basic dispatcher sends to [s]. *)
Lemma basic_select_interval (r : Q) (s : Scenario) :
  (0 <= r)%Q -> (r < 1)%Q ->
  Basic.select r = s
  <-> in_interval (basic_start s) (basic_stop s - basic_start s) r.
Proof.
  intros H0 H1. unfold Basic.select, in_interval. split.
  - intros <-. literals.
    thresholds r (5404319552844595 # 18014398509481984)%Q
      (5404319552844595 # 9007199254740992)%Q
      (3602879701896397 # 4503599627370496)%Q;
      unfold basic_start, basic_stop; literals; lra.
  - destruct s; unfold basic_start, basic_stop; literals; intros [? ?];
      thresholds r (5404319552844595 # 18014398509481984)%Q
        (5404319552844595 # 9007199254740992)%Q
        (3602879701896397 # 4503599627370496)%Q;
      try reflexivity; exfalso; lra.
Qed.

(** C3, as stated, fails for the basic script: the double the literal
    [0.6] denotes is a draw of [0,1) that lies in [0.3, 0.6), the interval
    of the declared share of the user operations, and the dispatcher sends
    it to the MQTT operations. *)
Lemma basic_draw_outside_declared_share :
  Js.literal 0.6 = boundary_draw
  /\ (0 <= boundary_draw)%Q /\ (boundary_draw < 1)%Q
  /\ in_interval (start basic_weight UserOperations)
       (share basic_weight UserOperations) boundary_draw
  /\ Basic.select boundary_draw = MqttOperations.
Proof.
  split; [vm_compute; reflexivity|]. split; [discriminate|].
  split; [reflexivity|]. split; [|vm_compute; reflexivity].
  unfold in_interval. vm_compute start. vm_compute share.
  unfold boundary_draw. lra.
Qed.

(** What an iteration sends and records is what the scenario does that
    the first draw selects. *)
Lemma default_runs_selected :
  (forall st : Coverage.State,
      let r := hd 0%Q (random (Coverage.world st)) in
      let st' :=
        Coverage.run_scenario (Coverage.select r) (Coverage.math_random st).2
      in
      sent (Coverage.world (Coverage.default st)) = sent (Coverage.world st')
      /\ Coverage.endpointCoverage (Coverage.default st)
         = Coverage.endpointCoverage st')
  /\ (forall st : Basic.State,
         let r := hd 0%Q (random (Basic.world st)) in
         let st' :=
           Basic.run_scenario (Basic.select r) (Basic.math_random st).2 in
         sent (Basic.world (Basic.default st)) = sent (Basic.world st')
         /\ Basic.errorRate (Basic.default st) = Basic.errorRate st').
Proof. split; intros st; split; reflexivity. Qed.

(** C3, amended.  For a draw [r] of [0,1), each dispatcher selects
    scenario [s] exactly when [r] lies in a half-open interval, and the
    iteration then sends and records what the test function of [s] does.
    In the comprehensive script the interval has the length of the
    declared share [weight s / sum(weights)], a quarter, and on every grid
    of [4 m] equidistant draws (the [2^53] doubles [k / 2^53] are one)
    the share of the draws sent to [s] is exactly that share.  In the
    basic script the interval ends at the doubles that the literals [0.3],
    [0.6], [0.8] denote: it starts within [2^-54] of where the declared
    shares (3/10, 3/10, 2/10, 2/10) put it, and its length is within
    [2^-53] of the declared share of [s], without being equal to it. *)
Theorem select_realizes_weights :
  forall (r : Q) (s : Scenario),
    (0 <= r)%Q -> (r < 1)%Q ->
    (Coverage.select r = s
     <-> in_interval (start comprehensive_weight s)
           (share comprehensive_weight s) r)
    /\ (Basic.select r = s
        <-> in_interval (basic_start s) (basic_stop s - basic_start s) r)
    /\ (share comprehensive_weight s == 25 # 100)%Q
    /\ (share basic_weight s == basic_weight s / 100)%Q
    /\ (Qabs (basic_start s - start basic_weight s) <= 1 # 2 ^ 54)%Q
    /\ (Qabs (basic_stop s - basic_start s - share basic_weight s)
        <= 1 # 2 ^ 53)%Q
    /\ ~ (basic_stop s - basic_start s == share basic_weight s)%Q
    /\ (forall m : nat,
           (0 < m)%nat ->
           (frequency Coverage.select s (4 * m)
            == share comprehensive_weight s)%Q)
    /\ (forall st : Coverage.State,
           hd 0%Q (random (Coverage.world st)) = r ->
           Coverage.select r = s ->
           let st' := Coverage.run_scenario s (Coverage.math_random st).2 in
           sent (Coverage.world (Coverage.default st))
           = sent (Coverage.world st')
           /\ Coverage.endpointCoverage (Coverage.default st)
              = Coverage.endpointCoverage st')
    /\ (forall st : Basic.State,
           hd 0%Q (random (Basic.world st)) = r ->
           Basic.select r = s ->
           let st' := Basic.run_scenario s (Basic.math_random st).2 in
           sent (Basic.world (Basic.default st)) = sent (Basic.world st')
           /\ Basic.errorRate (Basic.default st) = Basic.errorRate st').
Proof.
  intros r s H0 H1.
  split; [|split; [|split; [|split; [|split; [|split; [|split; [|split;
    [|split]]]]]]]].
  - unfold Coverage.select. literals. split.
    + thresholds r (1 # 4)%Q (1 # 2)%Q (3 # 4)%Q; interval_of_selection.
    + thresholds r (1 # 4)%Q (1 # 2)%Q (3 # 4)%Q; selection_of_interval s.
  - apply basic_select_interval; assumption.
  - destruct s; reflexivity.
  - destruct s; reflexivity.
  - destruct s; vm_compute; discriminate.
  - destruct s; vm_compute; discriminate.
  - destruct s; vm_compute; discriminate.
  - intros m Hm. apply grid_frequency, Hm.
  - intros st <- <-. apply (proj1 default_runs_selected).
  - intros st <- <-. apply (proj2 default_runs_selected).
Qed.

(** ** Dependent steps *)

Lemma world_trackEndpoint key ok rt st :
  Coverage.world (Coverage.trackEndpoint key ok rt st) = Coverage.world st.
Proof.
  unfold Coverage.trackEndpoint, Coverage.track_entry.
  destruct (Coverage.has_endpoint st key), ok; reflexivity.
Qed.

Lemma errorRate_trackEndpoint key ok rt st :
  Coverage.errorRate (Coverage.trackEndpoint key ok rt st)
  = Coverage.errorRate st.
Proof.
  unfold Coverage.trackEndpoint, Coverage.track_entry.
  destruct (Coverage.has_endpoint st key), ok; reflexivity.
Qed.

Lemma tracked_request_step key req check st :
  (tracked_request key req check st).1
  = check (coming_reply (Coverage.world st) 0)
  /\ tracked_step key req (tracked_request key req check st).1 st
       (tracked_request key req check st).2.
Proof.
  unfold tracked_request, Coverage.timed_request, tracked_step.
  cbn [Date_now http_request fst snd].
  rewrite world_trackEndpoint, errorRate_trackEndpoint,
    endpointHits_trackEndpoint, endpointResponseTime_trackEndpoint,
    trackEndpoint_coverage.
  split; [reflexivity|]. repeat split. eexists. split; reflexivity.
Qed.

Lemma testUserOperations_steps st :
  Coverage.testUserOperations st
  = let '(ok1, st2) :=
      tracked_request "GET /user/users"
        (GET "/user/users" (Some "get_users")) Coverage.check_get_users st in
    if negb ok1 then Coverage.errorRate_add 1 st2
    else
      let '(r, st3) := Coverage.math_random st2 in
      let '(ok2, st5) :=
        tracked_request "POST /user/users"
          (POST "/user/users" (pick Coverage.testUsers r) (Some "create_user"))
          Coverage.check_create_user st3 in
      if negb ok2 then Coverage.errorRate_add 1 st5
      else
        (tracked_request "GET /user/users/:id"
           (GET "/user/users/1" (Some "get_user_by_id"))
           Coverage.check_get_user st5).2.
Proof. reflexivity. Qed.

Lemma drop_1_tl {A} (l : list A) : drop 1 l = tl l.
Proof. destruct l; reflexivity. Qed.

Lemma drop_2_tl {A} (l : list A) : drop 2 l = tl (tl l).
Proof. destruct l as [|? [|? ?]]; reflexivity. Qed.

Lemma apply_calls_frame calls cov key :
  key ∉ calls.*1.*1 -> apply_calls calls cov !! key = cov !! key.
Proof.
  revert cov. induction calls as [|c calls IH]; intros cov Hk; [reflexivity|].
  rewrite !fmap_cons in Hk. apply not_elem_of_cons in Hk as [Hne Hk].
  simpl. rewrite (IH _ Hk). apply lookup_alter_ne. congruence.
Qed.

(** C4.  One run of [testUserOperations] attempts the first [n] of its
    three steps, in order, where [n] is 1 when the first check fails, 2 when
    the first passes and the second fails, 3 otherwise: no step after a
    failed one is attempted.  Its effect on the coverage state is that of
    exactly [n] [trackEndpoint] calls, one per attempted step, on the keys
    of these steps with the outcomes of their checks; the entry of every
    other key, those of the skipped steps included, is unchanged. *)
Theorem testUserOperations_short_circuits :
  forall st : Coverage.State,
    let w := Coverage.world st in
    let ok1 := Coverage.check_get_users (coming_reply w 0) in
    let ok2 := Coverage.check_create_user (coming_reply w 1) in
    let ok3 := Coverage.check_get_user (coming_reply w 2) in
    let n := user_steps_attempted ok1 ok2 in
    let st' := Coverage.testUserOperations st in
    exists calls : list Call,
      calls.*1 = take n (zip user_keys [ok1; ok2; ok3])
      /\ url <$> sent (Coverage.world st')
         = ((url <$> sent w) ++ take n user_urls)%list
      /\ Coverage.endpointHits st' = Coverage.endpointHits st + Z.of_nat n
      /\ Coverage.endpointResponseTime st'
         = (Coverage.endpointResponseTime st ++ calls.*2)%list
      /\ Coverage.endpointCoverage st'
         = apply_calls calls (Coverage.endpointCoverage st)
      /\ (forall key,
            key ∉ take n user_keys ->
            Coverage.endpointCoverage st' !! key
            = Coverage.endpointCoverage st !! key).
Proof.
  intros st w ok1 ok2 ok3 n st'.
  assert (Hframe : forall calls : list Call,
             calls.*1 = take n (zip user_keys [ok1; ok2; ok3]) ->
             forall key, key ∉ take n user_keys ->
                         apply_calls calls (Coverage.endpointCoverage st)
                           !! key
                         = Coverage.endpointCoverage st !! key).
  { intros calls Hc key Hk. apply apply_calls_frame. rewrite Hc.
    rewrite fmap_take, fst_zip by (simpl; lia). exact Hk. }
  subst st'. rewrite testUserOperations_steps.
  destruct (tracked_request_step "GET /user/users"
              (GET "/user/users" (Some "get_users"))
              Coverage.check_get_users st) as [O1 S1].
  destruct (tracked_request _ _ _ st) as [o1 st2]. cbn [fst snd] in O1, S1.
  assert (o1 = ok1) as -> by exact O1. clear O1.
  destruct S1 as (W1 & E1 & H1 & rt1 & T1 & C1).
  destruct ok1 eqn:Ek1; simpl negb; cbv iota.
  - (* the first step passed *)
    unfold Coverage.math_random. cbn [Math_random].
    set (st3 := Coverage.set_world st2 _).
    assert (W3 : Coverage.world st3
                 = mkWorld (tl (net w)) (tl (tl (clock w))) (tl (random w))
                     (sent w ++ [GET "/user/users" (Some "get_users")])
                     (slept w)).
    { subst st3. simpl. rewrite W1. reflexivity. }
    assert (F3 : Coverage.endpointHits st3 = Coverage.endpointHits st2
                 /\ Coverage.endpointResponseTime st3
                    = Coverage.endpointResponseTime st2
                 /\ Coverage.endpointCoverage st3
                    = Coverage.endpointCoverage st2) by (subst st3; auto).
    destruct F3 as (H3 & T3 & C3).
    destruct (tracked_request_step "POST /user/users"
                (POST "/user/users"
                   (pick Coverage.testUsers
                      (hd 0%Q (random (Coverage.world st2))))
                   (Some "create_user"))
                Coverage.check_create_user st3) as [O2 S2].
    destruct (tracked_request _ _ _ st3) as [o2 st5]. cbn [fst snd] in O2, S2.
    assert (o2 = ok2) as ->.
    { rewrite O2, W3. unfold ok2, coming_reply. simpl.
      rewrite drop_1_tl. reflexivity. }
    clear O2. destruct S2 as (W2 & E2 & H2 & rt2 & T2 & C2).
    rewrite W3 in W2. rewrite H3 in H2. rewrite T3 in T2. rewrite C3 in C2.
    clearbody st3. clear W3 H3 T3 C3.
    destruct ok2 eqn:Ek2; simpl negb; cbv iota.
    + (* the second step passed *)
      destruct (tracked_request_step "GET /user/users/:id"
                  (GET "/user/users/1" (Some "get_user_by_id"))
                  Coverage.check_get_user st5) as [O3 S3].
      destruct (tracked_request _ _ _ st5) as [o3 st6].
      cbn [fst snd] in O3, S3 |- *.
      assert (o3 = ok3) as ->.
      { rewrite O3, W2. unfold ok3, coming_reply. simpl.
        rewrite drop_2_tl. reflexivity. }
      clear O3. destruct S3 as (W3 & E3 & H3 & rt3 & T3 & C3).
      rewrite W2 in W3.
      pose (calls := [("GET /user/users", true, rt1);
                      ("POST /user/users", true, rt2);
                      ("GET /user/users/:id", ok3, rt3)] : list Call).
      assert (Hcalls : calls.*1 = take n (zip user_keys [true; true; ok3])).
      { subst n. reflexivity. }
      assert (Hcov : Coverage.endpointCoverage st6
                     = apply_calls calls (Coverage.endpointCoverage st)).
      { rewrite C3, C2, C1. reflexivity. }
      exists calls. split; [exact Hcalls|]. split; [|split; [|split; [|split]]].
      * rewrite W3. simpl. rewrite !fmap_app, <- !app_assoc. reflexivity.
      * rewrite H3, H2, H1. change (Z.of_nat n) with 3. lia.
      * rewrite T3, T2, T1, <- !app_assoc. reflexivity.
      * exact Hcov.
      * intros key Hk. rewrite Hcov. apply Hframe; assumption.
    + (* the second step failed *)
      pose (calls := [("GET /user/users", true, rt1);
                      ("POST /user/users", false, rt2)] : list Call).
      assert (Hcalls : calls.*1 = take n (zip user_keys [true; false; ok3])).
      { subst n. reflexivity. }
      assert (Hcov : Coverage.endpointCoverage
                       (Coverage.errorRate_add 1 st5)
                     = apply_calls calls (Coverage.endpointCoverage st)).
      { simpl. rewrite C2, C1. reflexivity. }
      exists calls. split; [exact Hcalls|]. split; [|split; [|split; [|split]]].
      * simpl. rewrite W2. simpl. rewrite !fmap_app, <- !app_assoc.
        reflexivity.
      * simpl. rewrite H2, H1. change (Z.of_nat n) with 2. lia.
      * simpl. rewrite T2, T1, <- !app_assoc. reflexivity.
      * exact Hcov.
      * intros key Hk. rewrite Hcov. apply Hframe; assumption.
  - (* the first step failed *)
    pose (calls := [("GET /user/users", false, rt1)] : list Call).
    assert (Hcalls : calls.*1 = take n (zip user_keys [false; ok2; ok3])).
    { subst n. reflexivity. }
    assert (Hcov : Coverage.endpointCoverage (Coverage.errorRate_add 1 st2)
                   = apply_calls calls (Coverage.endpointCoverage st)).
    { simpl. rewrite C1. reflexivity. }
    exists calls. split; [exact Hcalls|]. split; [|split; [|split; [|split]]].
    + simpl. rewrite W1. simpl. rewrite !fmap_app. reflexivity.
    + simpl. rewrite H1. change (Z.of_nat n) with 1. lia.
    + simpl. rewrite T1. reflexivity.
    + exact Hcov.
    + intros key Hk. rewrite Hcov. apply Hframe; assumption.
Qed.

(** ** Reachability check *)

Lemma status_not_200 (r : Response) :
  status r <> 200 -> negb (status r =? 200)%Z = true.
Proof. intros H. apply negb_true_iff, Z.eqb_neq, H. Qed.

(** C8.  When the reply to the reachability request of [setup] has a
    status other than 200, [setup] throws and the run of each script ends
    there, whatever the number of iterations asked for: the state it leaves
    is the initial one with that single request sent, so no iteration ran,
    no sample was added to a metric and no coverage entry changed. *)
Theorem setup_failure_aborts_run :
  forall (iterations : nat) (c : Coverage.State) (b : Basic.State)
         (m : Mqtt.State),
    status (coming_reply (Coverage.world c) 0) <> 200 ->
    status (coming_reply (Basic.world b) 0) <> 200 ->
    status (coming_reply (Mqtt.world m) 0) <> 200 ->
    run_test Coverage.setup Coverage.default Coverage.teardown iterations c
    = (inl not_responding, Coverage.set_world c (probed (Coverage.world c)))
    /\ run_test Basic.setup Basic.default Basic.teardown iterations b
       = (inl not_responding, Basic.set_world b (probed (Basic.world b)))
    /\ run_test Mqtt.setup Mqtt.default Mqtt.teardown iterations m
       = (inl not_responding, Mqtt.set_world m (probed (Mqtt.world m))).
Proof.
  intros iterations c b m Hc Hb Hm.
  apply status_not_200 in Hc, Hb, Hm.
  unfold coming_reply in Hc, Hb, Hm. rewrite drop_0 in Hc, Hb, Hm.
  unfold run_test, Coverage.setup, Basic.setup, Basic.request, Mqtt.setup.
  cbn [http_request]. rewrite Hc, Hb, Hm. repeat split.
Qed.

(** ** The custom error rate *)











(** Name the outcome and the state of the tracked step run on [st]. *)
Ltac run_step st ok st2 T :=
  match goal with
  | |- context [tracked_request ?k ?r ?c st] =>
      destruct (tracked_request k r c st) as [ok st2] eqn:T
  end.
















(** ** Thresholds of the MQTT report *)

Lemma div_by_zero_not_below (a : Js.Num) (limit : Q) :
  Js.negative a = false ->
  Js.lt (Js.div a (Js.Fin 0)) (Js.Fin limit) = false.
Proof.
  destruct a as [q| | |]; simpl; try reflexivity; try discriminate.
  intros Hq. destruct (Qeq_bool q 0); [reflexivity|].
  rewrite Hq. reflexivity.
Qed.

Lemma zero_over_nonzero (b : Js.Num) :
  b <> Js.NaN ->
  Js.lt (Js.div (Js.Fin 0) b) (Js.Fin (Js.literal 0.1)) = negb (Js.is_zero b).
Proof.
  destruct b as [q| | |]; [|congruence|reflexivity|reflexivity].
  intros _. unfold Js.div, Js.is_zero.
  destruct (Qeq_bool q 0) eqn:Eq; [reflexivity|].
  rewrite (round64_proper (0 / q) 0) by (unfold Qdiv; apply Qmult_0_l).
  reflexivity.
Qed.

Lemma httpReqs_not_NaN data : Mqtt.httpReqs data <> Js.NaN.
Proof.
  unfold Mqtt.httpReqs, Js.or0.
  destruct (metric_value data "http_reqs" "count") as [[q| | |]|];
    simpl; try discriminate.
  destruct (negb (Qeq_bool q 0)); discriminate.
Qed.

(** C6, as stated, fails: with ten requests and no [count] of failed
    requests in the summary, a metric the error-rate threshold refers to is
    absent and yet that threshold is reported as passed. *)
Lemma absent_failure_count_passes :
  metric_value summary_without_failures "http_req_failed" "count" = None
  /\ Mqtt.error_rate_under_10pct (report_thresholds summary_without_failures)
     = true.
Proof. split; reflexivity. Qed.

(** C6, amended.  The percentile thresholds of the report are not passed
    when the percentile they compare is absent from the summary; the
    error-rate threshold is not passed when the request count is absent or
    zero and the failure count is not negative.  An absent failure count
    counts as zero failures: the error-rate threshold then passes as soon
    as the request count is not zero. *)
Theorem report_thresholds_on_absent_metrics :
  forall data : SummaryData,
    (Mqtt.http_req_duration data "p95" = None ->
     Mqtt.p95_under_1000ms (report_thresholds data) = false)
    /\ (Mqtt.http_req_duration data "p99" = None ->
        Mqtt.p99_under_2000ms (report_thresholds data) = false)
    /\ (Mqtt.httpReqs data = Js.Fin 0 ->
        Js.negative (Mqtt.httpReqFailed data) = false ->
        Mqtt.error_rate_under_10pct (report_thresholds data) = false)
    /\ (metric_value data "http_reqs" "count" = None ->
        Mqtt.httpReqs data = Js.Fin 0)
    /\ (metric_value data "http_req_failed" "count" = None ->
        Mqtt.error_rate_under_10pct (report_thresholds data)
        = negb (Js.is_zero (Mqtt.httpReqs data))).
Proof.
  intros data. unfold report_thresholds. simpl.
  split; [intros ->; reflexivity|].
  split; [intros ->; reflexivity|].
  split; [|split].
  - intros -> Hneg. apply div_by_zero_not_below, Hneg.
  - unfold Mqtt.httpReqs. intros ->. reflexivity.
  - intros Habs. unfold Mqtt.httpReqFailed at 1. rewrite Habs.
    apply zero_over_nonzero, httpReqs_not_NaN.
Qed.

(** ** Percentiles of the MQTT report *)

Lemma append_nonempty (s t : string) (c : Ascii.ascii) :
  String.eqb (s ++ String c t) "" = false.
Proof. destruct s; reflexivity. Qed.

Lemma toFixed2_nonempty (n : Js.Num) : String.eqb (Js.toFixed2 n) "" = false.
Proof.
  destruct n as [q| | |]; try reflexivity. simpl.
  destruct (Js.Qltb q 0); [reflexivity|].
  unfold Js.fixed2_abs. apply append_nonempty.
Qed.

Lemma fixed2_or0_present (n : Js.Num) :
  Mqtt.fixed2_or0 (Some n) = Js.FStr (Js.toFixed2 n).
Proof.
  unfold Mqtt.fixed2_or0, Mqtt.or_zero. rewrite toFixed2_nonempty.
  reflexivity.
Qed.

Lemma metric_value_with_metric name m data other field :
  other <> name ->
  metric_value (with_metric name m data) other field
  = metric_value data other field.
Proof.
  intros Hne. unfold metric_value, with_metric. simpl.
  rewrite lookup_insert_ne by congruence. reflexivity.
Qed.

Lemma performanceData_with_metric name m data ts td :
  name ∉ report_metrics ->
  Mqtt.performanceData (with_metric name m data) ts td
  = Mqtt.performanceData data ts td.
Proof.
  intros Hname. unfold report_metrics in Hname.
  rewrite !not_elem_of_cons in Hname.
  unfold Mqtt.performanceData, Mqtt.httpSuccessRate, Mqtt.httpReqs,
    Mqtt.httpReqFailed, Mqtt.http_req_duration.
  rewrite !metric_value_with_metric by (intros E; subst name; intuition).
  reflexivity.
Qed.

(** C5, as stated, fails: on a summary whose request durations have a 95th
    percentile of 999.996 ms, the report shows [1000.00] while its
    thresholds block compared 999.996 and reports the limit of 1000 ms as
    met; and its 99th-percentile result is a failure although the declared
    k6 threshold, which is on [mqtt_publish_response_time], passes. *)
Lemma report_near_limit_disagrees :
  Mqtt.http_req_duration summary_near_limit "p95" = Some (Js.Fin 999.996)
  /\ Mqtt.p95 (report_response_time summary_near_limit) = Js.FStr "1000.00"
  /\ Mqtt.p95_under_1000ms (report_thresholds summary_near_limit) = true
  /\ Mqtt.p99_under_2000ms (report_thresholds summary_near_limit) = false
  /\ Mqtt.thresholds !! 0%nat
     = Some ("mqtt_publish_response_time",
             [("p(95)", 1000%Q); ("p(99)", 2000%Q)])
  /\ Mqtt.declared_passes summary_near_limit
       "mqtt_publish_response_time" "p(99)" 2000 = true.
Proof. repeat split; reflexivity. Qed.

(** C5, amended.  The p95 and p99 the MQTT report shows are the
    two-decimal renderings of the [http_req_duration] values of the same
    summary that its thresholds block compares with 1000 and 2000: what is
    shown is within half a hundredth of what is compared, and the HTML and
    the JSON artifact show the same fields.  The report reads
    [http_req_duration], not the metric of the declared k6 thresholds:
    replacing [mqtt_publish_response_time], or any other metric the report
    does not read, changes nothing in it, and of the metrics with a
    declared threshold it reads [http_req_failed] only. *)
Theorem report_percentiles_round_threshold_inputs :
  forall (data : SummaryData) (timestamp testDate : Z) (q95 q99 : Q),
    Mqtt.http_req_duration data "p95" = Some (Js.Fin q95) ->
    Mqtt.http_req_duration data "p99" = Some (Js.Fin q99) ->
    let pd := Mqtt.performanceData data timestamp testDate in
    let shown := Mqtt.responseTime (Mqtt.pd_metrics pd) in
    (Mqtt.p95 shown = Js.FStr (Js.toFixed2 (Js.Fin q95))
     /\ Mqtt.p95_under_1000ms (Mqtt.pd_thresholds pd) = Js.Qltb q95 1000
     /\ exists v, Js.fixed2_value (Js.Fin q95) = Js.Fin v
                  /\ (Qabs (v - q95) <= 1 # 200)%Q)
    /\ (Mqtt.p99 shown = Js.FStr (Js.toFixed2 (Js.Fin q99))
        /\ Mqtt.p99_under_2000ms (Mqtt.pd_thresholds pd) = Js.Qltb q99 2000
        /\ exists v, Js.fixed2_value (Js.Fin q99) = Js.Fin v
                     /\ (Qabs (v - q99) <= 1 # 200)%Q)
    /\ (Mqtt.SField (Mqtt.p95 shown) ∈ Mqtt.htmlReport testDate pd
        /\ Mqtt.SField (Mqtt.p99 shown) ∈ Mqtt.htmlReport testDate pd)
    /\ (forall name m,
           name ∉ report_metrics ->
           Mqtt.performanceData (with_metric name m data) timestamp testDate
           = pd)
    /\ (forall metric limits,
           (metric, limits) ∈ Mqtt.thresholds ->
           metric <> "http_req_failed" ->
           metric ∉ report_metrics).
Proof.
  intros data timestamp testDate q95 q99 H95 H99 pd shown.
  split; [|split; [|split; [|split]]].
  - subst shown pd. simpl. rewrite H95.
    split; [apply fixed2_or0_present|]. split; [reflexivity|].
    apply fixed2_value_close.
  - subst shown pd. simpl. rewrite H99.
    split; [apply fixed2_or0_present|]. split; [reflexivity|].
    apply fixed2_value_close.
  - unfold Mqtt.htmlReport. rewrite !elem_of_cons. split; tauto.
  - intros name m Hname. apply performanceData_with_metric, Hname.
  - intros metric limits Hin Hne. unfold Mqtt.thresholds in Hin.
    rewrite !elem_of_cons, elem_of_nil in Hin.
    unfold report_metrics. rewrite !not_elem_of_cons.
    destruct Hin as [[= -> _]|[[= -> _]|[[= -> _]|[]]]];
      repeat split; try discriminate; try apply not_elem_of_nil; done.
Qed.

(** ** Report synthesis *)

Lemma coverage_handleSummary_state data c :
  (Coverage.handleSummary data c).2
  = Coverage.set_world c (Date_now (Coverage.world c)).2.
Proof. reflexivity. Qed.

Lemma coverage_handleSummary_values data c w :
  coverage_values <$> (Coverage.handleSummary data (Coverage.set_world c w)).1.*2
  = coverage_values <$> (Coverage.handleSummary data c).1.*2.
Proof. reflexivity. Qed.

Lemma mqtt_handleSummary_values data m w :
  mqtt_values <$> (Mqtt.handleSummary data (Mqtt.set_world m w)).1.*2
  = mqtt_values <$> (Mqtt.handleSummary data m).1.*2.
Proof. reflexivity. Qed.

(** C7.  Invoking [handleSummary] a second time, on the same summary data
    and in the state the first invocation left, yields artifacts with the
    same metric values, in the comprehensive and in the MQTT script: the
    two results differ at most in the dates read from the clock.  The first
    invocation leaves the coverage state as it found it; only the clock
    has advanced. *)
Theorem handleSummary_twice_same_values :
  forall (data : SummaryData) (c : Coverage.State) (m : Mqtt.State),
    let c1 := Coverage.handleSummary data c in
    let c2 := Coverage.handleSummary data c1.2 in
    let m1 := Mqtt.handleSummary data m in
    let m2 := Mqtt.handleSummary data m1.2 in
    coverage_values <$> c2.1.*2 = coverage_values <$> c1.1.*2
    /\ c2.1.*1 = c1.1.*1
    /\ mqtt_values <$> m2.1.*2 = mqtt_values <$> m1.1.*2
    /\ Coverage.endpointCoverage c1.2 = Coverage.endpointCoverage c
    /\ c1.2 = Coverage.set_world c (Coverage.world c1.2)
    /\ m1.2 = Mqtt.set_world m (Mqtt.world m1.2).
Proof.
  intros data c m c1 c2 m1 m2.
  split; [|split; [|split; [|split; [|split]]]].
  - subst c2 c1. rewrite coverage_handleSummary_state.
    apply coverage_handleSummary_values.
  - reflexivity.
  - apply (mqtt_handleSummary_values data m (Mqtt.world m1.2)).
  - reflexivity.
  - reflexivity.
  - reflexivity.
Qed.

(** ** Instances *)

Lemma trackEndpoint_keeps_entries_balanced_witness :
  Forall (fun c => 0 <= call_time c) sample_calls
  /\ coverage_ok
       (Coverage.endpointCoverage
          (run_calls (take 2 sample_calls) (Coverage.init quiet))).
Proof.
  assert (H : Forall (fun c => 0 <= call_time c) sample_calls).
  { repeat constructor; unfold call_time; simpl; lia. }
  split; [exact H|].
  exact (proj1 (trackEndpoint_keeps_entries_balanced quiet sample_calls H)
           2%nat).
Defined.

Lemma select_realizes_weights_witness :
  (0 <= 1 # 3)%Q /\ (1 # 3 < 1)%Q
  /\ (Basic.select (1 # 3) = UserOperations
      <-> in_interval (basic_start UserOperations)
            (basic_stop UserOperations - basic_start UserOperations) (1 # 3)).
Proof.
  assert (H0 : (0 <= 1 # 3)%Q) by (unfold Qle; simpl; lia).
  assert (H1 : (1 # 3 < 1)%Q) by reflexivity.
  split; [exact H0|]. split; [exact H1|].
  exact (proj1 (proj2 (select_realizes_weights (1 # 3) UserOperations H0 H1))).
Defined.

Lemma report_percentiles_round_threshold_inputs_witness :
  Mqtt.http_req_duration summary_near_limit "p95" = Some (Js.Fin 999.996)
  /\ Mqtt.http_req_duration summary_near_limit "p99" = Some (Js.Fin 2500)
  /\ Mqtt.p95_under_1000ms (report_thresholds summary_near_limit)
     = Js.Qltb 999.996 1000.
Proof.
  assert (H95 : Mqtt.http_req_duration summary_near_limit "p95"
                = Some (Js.Fin 999.996)) by reflexivity.
  assert (H99 : Mqtt.http_req_duration summary_near_limit "p99"
                = Some (Js.Fin 2500)) by reflexivity.
  split; [exact H95|]. split; [exact H99|].
  exact (proj1 (proj2 (proj1
           (report_percentiles_round_threshold_inputs
              summary_near_limit 0 0 _ _ H95 H99)))).
Defined.

Lemma setup_failure_aborts_run_witness :
  status (coming_reply unavailable 0) <> 200
  /\ run_test Basic.setup Basic.default Basic.teardown 5
       (Basic.init unavailable)
     = (inl not_responding,
        Basic.set_world (Basic.init unavailable) (probed unavailable)).
Proof.
  assert (H : status (coming_reply unavailable 0) <> 200)
    by (simpl; lia).
  split; [exact H|].
  exact (proj1 (proj2
           (setup_failure_aborts_run 5 (Coverage.init unavailable)
              (Basic.init unavailable)
              (Mqtt.mkState [] [] 0 0 [] unavailable) H H H))).
Defined.

Lemma trackEndpoint_undeclared_key_witness :
  ("GET /nowhere" ∉ Coverage.declared_keys)
  /\ Coverage.endpointCoverage
       (Coverage.trackEndpoint "GET /nowhere" false 3
          (run_calls sample_calls (Coverage.init quiet)))
     = Coverage.endpointCoverage
         (run_calls sample_calls (Coverage.init quiet)).
Proof.
  assert (H : "GET /nowhere" ∉ Coverage.declared_keys).
  { apply (bool_decide_unpack _). vm_compute. exact I. }
  split; [exact H|].
  exact (proj1 (trackEndpoint_undeclared_key quiet sample_calls
                  "GET /nowhere" false 3 H)).
Defined.

(** ** More on the accumulator *)

Lemma run_calls_coverage calls st :
  Coverage.endpointCoverage (run_calls calls st)
  = apply_calls calls (Coverage.endpointCoverage st).
Proof.
  revert st. induction calls as [|c calls IH]; intros st; [reflexivity|].
  simpl. rewrite IH, trackEndpoint_coverage. reflexivity.
Qed.

Lemma apply_calls_cons (c : Call) calls cov :
  apply_calls (c :: calls) cov
  = apply_calls calls (alter (bump c.1.2 c.2) c.1.1 cov).
Proof. reflexivity. Qed.

Lemma run_calls_cons (c : Call) calls st :
  run_calls (c :: calls) st
  = run_calls calls (Coverage.trackEndpoint c.1.1 c.1.2 c.2 st).
Proof. reflexivity. Qed.

Lemma apply_calls_tally calls cov key e :
  cov !! key = Some e ->
  apply_calls calls cov !! key = Some (merge e (tally (calls_on key calls))).
Proof.
  revert cov e. induction calls as [|[[k ok] rt] calls IH]; intros cov e He.
  - simpl. rewrite He. f_equal. destruct e; unfold merge; simpl.
    f_equal; lia.
  - rewrite apply_calls_cons.
    unfold calls_on. rewrite filter_cons. cbn [fst snd].
    destruct (decide (k = key)) as [->|Hne].
    + rewrite (IH _ (bump ok rt e)) by (rewrite lookup_alter_eq, He; done).
      f_equal. unfold merge, tally, bump. fold (calls_on key calls).
      rewrite !filter_cons, !fmap_cons. cbn [fst snd length foldr].
      destruct ok; cbn [hits success errors totalResponseTime];
        repeat (case_decide; try congruence); cbn [length];
        f_equal; lia.
    + rewrite (IH _ e) by (rewrite lookup_alter_ne by done; exact He).
      reflexivity.
Qed.

Lemma apply_calls_absent calls (cov : gmap string Entry) key :
  cov !! key = None -> apply_calls calls cov !! key = None.
Proof.
  revert cov. induction calls as [|c calls IH]; intros cov Hk; [exact Hk|].
  rewrite apply_calls_cons. apply IH.
  rewrite lookup_alter. case_decide; [subst; rewrite Hk|]; done.
Qed.

Lemma run_calls_endpointHits calls st :
  Coverage.endpointHits (run_calls calls st)
  = Coverage.endpointHits st + Z.of_nat (length calls).
Proof.
  revert st. induction calls as [|c calls IH]; intros st; [simpl; lia|].
  rewrite run_calls_cons, IH, endpointHits_trackEndpoint. cbn [length]. lia.
Qed.

Lemma run_calls_endpointResponseTime calls st :
  Coverage.endpointResponseTime (run_calls calls st)
  = (Coverage.endpointResponseTime st ++ calls.*2)%list.
Proof.
  revert st. induction calls as [|c calls IH]; intros st.
  - simpl. rewrite app_nil_r. reflexivity.
  - rewrite run_calls_cons, IH, endpointResponseTime_trackEndpoint,
      fmap_cons, <- app_assoc.
    reflexivity.
Qed.

(** X1.  After any sequence of [trackEndpoint] calls on the initial table,
    the entry of a declared endpoint is the tally of the calls made on it:
    [hits] counts them, [success] and [errors] count those with a passed and
    with a failed check, [totalResponseTime] is the sum of their response
    times.  A key that is not declared has no entry.  The global counter
    counts all calls and the trend holds their response times in order. *)
Theorem run_calls_tallies :
  forall (w : World) (calls : list Call) (key : string),
    let st := run_calls calls (Coverage.init w) in
    Coverage.endpointCoverage st !! key
    = (if decide (key ∈ Coverage.declared_keys)
       then Some (tally (calls_on key calls)) else None)
    /\ Coverage.endpointHits st = Z.of_nat (length calls)
    /\ Coverage.endpointResponseTime st = calls.*2.
Proof.
  intros w calls key st. subst st. split; [|split].
  - rewrite run_calls_coverage. case_decide as Hk.
    + rewrite (apply_calls_tally _ _ _ entry0)
        by apply endpointCoverage0_declared, Hk.
      unfold merge. destruct (tally _). reflexivity.
    + apply apply_calls_absent. apply eq_None_not_Some.
      intros [e He]. apply endpointCoverage0_lookup in He. tauto.
  - rewrite run_calls_endpointHits. reflexivity.
  - rewrite run_calls_endpointResponseTime. reflexivity.
Qed.

Lemma bump_comm a r b t e : bump a r (bump b t e) = bump b t (bump a r e).
Proof. destruct a, b; unfold bump; simpl; f_equal; lia. Qed.

Lemma alter_bump_comm a r k b t j (m : gmap string Entry) :
  alter (bump a r) k (alter (bump b t) j m)
  = alter (bump b t) j (alter (bump a r) k m).
Proof.
  apply map_eq. intros i.
  destruct (decide (k = i)) as [->|Hk], (decide (j = i)) as [->|Hj];
    repeat first [rewrite lookup_alter_eq | rewrite lookup_alter_ne by done];
    try reflexivity.
  destruct (m !! i); simpl; [|reflexivity]. rewrite bump_comm. reflexivity.
Qed.

Lemma apply_calls_permutation calls calls' :
  calls ≡ₚ calls' -> forall cov, apply_calls calls cov = apply_calls calls' cov.
Proof.
  induction 1 as [|c l l' _ IH|c d l|l l' l'' _ IH1 _ IH2]; intros cov.
  - reflexivity.
  - rewrite !apply_calls_cons. apply IH.
  - rewrite !apply_calls_cons, alter_bump_comm. reflexivity.
  - rewrite IH1. apply IH2.
Qed.

Lemma has_endpoint_trackEndpoint key ok rt st j :
  Coverage.has_endpoint (Coverage.trackEndpoint key ok rt st) j
  = Coverage.has_endpoint st j.
Proof.
  unfold Coverage.has_endpoint. rewrite trackEndpoint_coverage, lookup_alter.
  case_decide; [subst j|reflexivity].
  destruct (Coverage.endpointCoverage st !! key); reflexivity.
Qed.

Lemma successfulRequests_trackEndpoint key ok rt st :
  Coverage.successfulRequests (Coverage.trackEndpoint key ok rt st)
  = Coverage.successfulRequests st
    + (if Coverage.has_endpoint st key && ok then 1 else 0).
Proof.
  unfold Coverage.trackEndpoint, Coverage.track_entry.
  destruct (Coverage.has_endpoint st key), ok; simpl; lia.
Qed.

Lemma failedRequests_trackEndpoint key ok rt st :
  Coverage.failedRequests (Coverage.trackEndpoint key ok rt st)
  = Coverage.failedRequests st
    + (if Coverage.has_endpoint st key && negb ok then 1 else 0).
Proof.
  unfold Coverage.trackEndpoint, Coverage.track_entry.
  destruct (Coverage.has_endpoint st key), ok; simpl; lia.
Qed.

Lemma counted_calls_trackEndpoint key ok rt st b calls :
  counted_calls (Coverage.trackEndpoint key ok rt st) b calls
  = counted_calls st b calls.
Proof.
  unfold counted_calls. apply list_filter_iff. intros c.
  rewrite has_endpoint_trackEndpoint. reflexivity.
Qed.

Lemma counted_calls_cons st b (c : Call) calls :
  Z.of_nat (length (counted_calls st b (c :: calls)))
  = (if Coverage.has_endpoint st c.1.1 && bool_decide (c.1.2 = b)
     then 1 else 0)
    + Z.of_nat (length (counted_calls st b calls)).
Proof.
  unfold counted_calls. rewrite filter_cons.
  destruct (decide (Coverage.has_endpoint st c.1.1 = true /\ c.1.2 = b))
    as [[H1 H2]|Hn].
  - rewrite H1, bool_decide_true by exact H2. cbn [andb length]. lia.
  - destruct (Coverage.has_endpoint st c.1.1); cbn [andb]; [|lia].
    rewrite bool_decide_false; [lia|]. intros H. apply Hn. split; done.
Qed.

Lemma run_calls_counters calls st :
  Coverage.successfulRequests (run_calls calls st)
  = Coverage.successfulRequests st
    + Z.of_nat (length (counted_calls st true calls))
  /\ Coverage.failedRequests (run_calls calls st)
     = Coverage.failedRequests st
       + Z.of_nat (length (counted_calls st false calls)).
Proof.
  revert st. induction calls as [|[[k ok] rt] calls IH]; intros st.
  - simpl. split; lia.
  - rewrite run_calls_cons. cbn [fst snd].
    destruct (IH (Coverage.trackEndpoint k ok rt st)) as [-> ->].
    rewrite !counted_calls_trackEndpoint, !counted_calls_cons.
    rewrite successfulRequests_trackEndpoint, failedRequests_trackEndpoint.
    cbn [fst snd].
    destruct (Coverage.has_endpoint st k), ok; cbn [andb negb];
      repeat case_bool_decide; try congruence; split; lia.
Qed.

(** X2.  The coverage table and the counters do not depend on the order of
    the [trackEndpoint] calls: two sequences with the same calls, in any
    order, started in the same state, leave the same table and the same
    three counters, and the same samples in the trend up to their order. *)
Theorem run_calls_order_independent :
  forall (st : Coverage.State) (calls calls' : list Call),
    calls ≡ₚ calls' ->
    Coverage.endpointCoverage (run_calls calls st)
    = Coverage.endpointCoverage (run_calls calls' st)
    /\ Coverage.endpointHits (run_calls calls st)
       = Coverage.endpointHits (run_calls calls' st)
    /\ Coverage.successfulRequests (run_calls calls st)
       = Coverage.successfulRequests (run_calls calls' st)
    /\ Coverage.failedRequests (run_calls calls st)
       = Coverage.failedRequests (run_calls calls' st)
    /\ Coverage.endpointResponseTime (run_calls calls st)
       ≡ₚ Coverage.endpointResponseTime (run_calls calls' st).
Proof.
  intros st calls calls' Hperm.
  destruct (run_calls_counters calls st) as [Hs Hf].
  destruct (run_calls_counters calls' st) as [Hs' Hf'].
  split; [|split; [|split; [|split]]].
  - rewrite !run_calls_coverage. apply apply_calls_permutation, Hperm.
  - rewrite !run_calls_endpointHits, Hperm. reflexivity.
  - rewrite Hs, Hs'. unfold counted_calls. rewrite Hperm. reflexivity.
  - rewrite Hf, Hf'. unfold counted_calls. rewrite Hperm. reflexivity.
  - rewrite !run_calls_endpointResponseTime, Hperm. reflexivity.
Qed.

Lemma count_tested_mono (m m' : gmap string Entry) :
  (forall key e, m !! key = Some e -> 0 < hits e ->
                 exists e', m' !! key = Some e' /\ 0 < hits e') ->
  (count_tested m <= count_tested m')%nat.
Proof.
  intros H. unfold count_tested.
  rewrite <- !(size_dom (D := gset string)). apply subseteq_size.
  intros key. rewrite !elem_of_dom. intros [e He].
  apply map_lookup_filter_Some in He as [He Hp]. simpl in Hp.
  destruct (H key e He Hp) as (e' & He' & Hp').
  exists e'. apply map_lookup_filter_Some. split; [exact He'|exact Hp'].
Qed.

Lemma apply_calls_hits calls cov key e :
  cov !! key = Some e ->
  exists e', apply_calls calls cov !! key = Some e' /\ hits e <= hits e'.
Proof.
  intros He. rewrite (apply_calls_tally _ _ _ _ He). eexists.
  split; [reflexivity|]. simpl. lia.
Qed.

(** X3.  Coverage only grows: along any sequence of [trackEndpoint] calls,
    from any state, the [hits] of an entry never decrease, no entry
    disappears, and the number of endpoints with [hits > 0] - the numerator
    of the coverage percentage - never decreases. *)
Theorem coverage_never_decreases :
  forall (st : Coverage.State) (calls : list Call),
    (forall key e,
        Coverage.endpointCoverage st !! key = Some e ->
        exists e',
          Coverage.endpointCoverage (run_calls calls st) !! key = Some e'
          /\ hits e <= hits e')
    /\ (count_tested (Coverage.endpointCoverage st)
        <= count_tested (Coverage.endpointCoverage (run_calls calls st)))%nat
    /\ size (Coverage.endpointCoverage (run_calls calls st))
       = size (Coverage.endpointCoverage st).
Proof.
  intros st calls. rewrite run_calls_coverage. split; [|split].
  - intros key e He. apply apply_calls_hits, He.
  - apply count_tested_mono. intros key e He Hp.
    destruct (apply_calls_hits calls _ _ _ He) as (e' & He' & Hle).
    exists e'. split; [exact He'|lia].
  - rewrite <- !(size_dom (D := gset string)). f_equal.
    apply set_eq. intros key. rewrite !elem_of_dom.
    destruct (Coverage.endpointCoverage st !! key) as [e|] eqn:He.
    + destruct (apply_calls_hits calls _ _ _ He) as (e' & -> & _).
      split; eauto.
    + rewrite (apply_calls_absent _ _ _ He). reflexivity.
Qed.

(** ** The teardown statistics *)

Lemma foldl_insert_lookup {B} (f : Entry -> B) (l : list (string * Entry))
    (acc : gmap string B) key :
  NoDup l.*1 ->
  foldl (fun acc (kv : string * Entry) => <[kv.1 := f kv.2]> acc) acc l !! key
  = match (list_to_map l : gmap string Entry) !! key with
    | Some e => Some (f e)
    | None => acc !! key
    end.
Proof.
  revert acc. induction l as [|[k0 e0] l IH]; intros acc Hnd; [reflexivity|].
  apply NoDup_cons in Hnd as [Hk0 Hnd]. cbn [foldl fst snd].
  rewrite (IH _ Hnd). cbn [list_to_map foldr fst snd].
  destruct (decide (k0 = key)) as [->|Hne].
  - rewrite lookup_insert_eq.
    rewrite (not_elem_of_list_to_map_1 _ _ Hk0), lookup_insert_eq.
    reflexivity.
  - rewrite (lookup_insert_ne (list_to_map l)) by done.
    destruct (list_to_map l !! key); [reflexivity|].
    apply lookup_insert_ne. done.
Qed.

Lemma foldl_teardown_step (l : list (string * Entry)) m a b :
  foldl Coverage.teardown_step (m, a, b) l
  = (foldl (fun acc (kv : string * Entry) =>
              <[kv.1 := Coverage.stats_of kv.2]> acc) m l,
     a + Z.of_nat (length l),
     b + Z.of_nat
           (length (filter (fun kv : string * Entry => 0 < hits kv.2) l))).
Proof.
  revert m a b. induction l as [|kv l IH]; intros m a b.
  - simpl. rewrite !Z.add_0_r. reflexivity.
  - cbn [foldl]. rewrite filter_cons.
    assert (Hstep : Coverage.teardown_step (m, a, b) kv
                    = (<[kv.1 := Coverage.stats_of kv.2]> m, a + 1,
                       if decide (0 < hits kv.2) then b + 1 else b)).
    { unfold Coverage.teardown_step.
      destruct (Z.ltb_spec 0 (hits kv.2)) as [Hp|Hp].
      - rewrite decide_True by exact Hp. reflexivity.
      - rewrite decide_False by lia. reflexivity. }
    rewrite Hstep, IH.
    destruct (decide (0 < hits kv.2)); cbn [length];
      (apply pair_equal_spec; split; [apply pair_equal_spec; split|]);
      try reflexivity; lia.
Qed.

Lemma count_tested_list (m : gmap string Entry) :
  length (filter (fun kv : string * Entry => 0 < hits kv.2) (map_to_list m))
  = count_tested m.
Proof.
  unfold count_tested.
  rewrite map_filter_alt, map_size_list_to_map; [reflexivity|].
  eapply sublist_NoDup; [apply (NoDup_fst_map_to_list m)|].
  apply fmap_sublist, sublist_filter.
Qed.

(** X4.  [teardown] reports, for the coverage table it finds: statistics
    for exactly the endpoints of the table, the entry of a never-hit one
    being [hits = 0] with the explicit ["0%"] and ["0ms"]; the number of all
    endpoints and of those with [hits > 0]; and the same three summary
    values (total, tested, percentage) as the coverage artifact of
    [handleSummary] on the same state.  It leaves the coverage state as it
    is. *)
Theorem teardown_reports_coverage :
  forall (setupData : Coverage.SetupData) (data : SummaryData)
         (st : Coverage.State),
    let td := (Coverage.teardown setupData st).1 in
    let cov := Coverage.endpointCoverage st in
    dom (Coverage.coverageStats td) = dom cov
    /\ (forall key e,
          cov !! key = Some e ->
          Coverage.coverageStats td !! key = Some (Coverage.stats_of e))
    /\ (forall key e,
          cov !! key = Some e -> hits e = 0 ->
          Coverage.coverageStats td !! key
          = Some (Coverage.mkEndpointStats 0 "0%" "0ms" (errors e)))
    /\ Coverage.td_totalEndpoints td = Z.of_nat (size cov)
    /\ Coverage.td_testedEndpoints td = Z.of_nat (count_tested cov)
    /\ (exists report,
          coverage_artifact (Coverage.handleSummary data st).1 = Some report
          /\ Coverage.totalEndpoints (Coverage.summary report)
             = Coverage.td_totalEndpoints td
          /\ Coverage.testedEndpoints (Coverage.summary report)
             = Coverage.td_testedEndpoints td
          /\ Coverage.coveragePercentage (Coverage.summary report)
             = Coverage.td_coveragePercentage td)
    /\ Coverage.endpointCoverage (Coverage.teardown setupData st).2 = cov.
Proof.
  intros setupData data st td cov.
  assert (Hlookup : forall key,
             Coverage.coverageStats td !! key = Coverage.stats_of <$> cov !! key).
  { intros key. subst td. unfold Coverage.teardown.
    rewrite foldl_teardown_step. cbn [Date_now fst snd Coverage.coverageStats].
    rewrite foldl_insert_lookup by apply NoDup_fst_map_to_list.
    rewrite list_to_map_to_list. fold cov.
    destruct (cov !! key); reflexivity. }
  assert (Htotal : Coverage.td_totalEndpoints td = Z.of_nat (size cov)).
  { subst td. unfold Coverage.teardown. rewrite foldl_teardown_step.
    cbn [Date_now fst snd Coverage.td_totalEndpoints].
    rewrite length_map_to_list. reflexivity. }
  assert (Htested : Coverage.td_testedEndpoints td
                    = Z.of_nat (count_tested cov)).
  { subst td. unfold Coverage.teardown. rewrite foldl_teardown_step.
    cbn [Date_now fst snd Coverage.td_testedEndpoints].
    rewrite count_tested_list. reflexivity. }
  assert (Hpct : Coverage.td_coveragePercentage td
                 = Coverage.percent2 (Z.of_nat (count_tested cov))
                     (Z.of_nat (size cov))).
  { subst td. unfold Coverage.teardown. rewrite foldl_teardown_step.
    cbn [Date_now fst snd Coverage.td_coveragePercentage].
    rewrite count_tested_list, length_map_to_list. reflexivity. }
  split; [|split; [|split; [|split; [|split; [|split]]]]].
  - apply set_eq. intros key. rewrite !elem_of_dom, Hlookup, fmap_is_Some.
    reflexivity.
  - intros key e He. rewrite Hlookup, He. reflexivity.
  - intros key e He Hz. rewrite Hlookup, He. simpl.
    unfold Coverage.stats_of. rewrite Hz. reflexivity.
  - exact Htotal.
  - exact Htested.
  - exists (Coverage.coverage_report data (hd 0 (clock (Coverage.world st))) st).
    split; [reflexivity|]. simpl.
    rewrite count_tested_entries, length_keys, Htotal, Htested, Hpct.
    repeat split.
  - subst td cov. unfold Coverage.teardown. rewrite foldl_teardown_step.
    reflexivity.
Qed.

(** ** Rates of the coverage report *)

Lemma inject_Z_nonzero (h : Z) : 0 < h -> Qeq_bool (inject_Z h) 0 = false.
Proof.
  intros Hh. destruct (Qeq_bool (inject_Z h) 0) eqn:E; [|reflexivity].
  apply Qeq_bool_iff in E. unfold Qeq in E. simpl in E. lia.
Qed.

Lemma percent2_all (h : Z) : 0 < h -> Coverage.percent2 h h = "100.00".
Proof.
  intros Hh. unfold Coverage.percent2, Js.of_Z, Js.div.
  rewrite (inject_Z_nonzero h Hh).
  assert (E : (inject_Z h / inject_Z h == 1)%Q).
  { field. intros H0. unfold Qeq in H0. simpl in H0. lia. }
  rewrite (round64_proper _ _ E). vm_compute. reflexivity.
Qed.

Lemma percent2_none (h : Z) : 0 < h -> Coverage.percent2 0 h = "0.00".
Proof.
  intros Hh. unfold Coverage.percent2, Js.of_Z, Js.div.
  rewrite (inject_Z_nonzero h Hh).
  assert (E : (inject_Z 0 / inject_Z h == 0)%Q).
  { unfold Qdiv. apply Qmult_0_l. }
  rewrite (round64_proper _ _ E). vm_compute. reflexivity.
Qed.

(** X5.  In the coverage artifact of [handleSummary], an endpoint that was
    hit is reported as tested; its success rate is ["100.00"] when every
    check on it passed and ["0.00"] when none did. *)
Theorem handleSummary_extreme_success_rates :
  forall (data : SummaryData) (st : Coverage.State),
    exists report,
      coverage_artifact (Coverage.handleSummary data st).1 = Some report
      /\ forall key e,
          Coverage.endpointCoverage st !! key = Some e ->
          0 < hits e ->
          exists r,
            Coverage.report_endpoints report !! key = Some r
            /\ Coverage.tested r = true
            /\ Coverage.r_hits r = hits e
            /\ (success e = hits e -> Coverage.successRate r = "100.00")
            /\ (success e = 0 -> Coverage.successRate r = "0.00").
Proof.
  intros data st.
  exists (Coverage.coverage_report data (hd 0 (clock (Coverage.world st))) st).
  split; [reflexivity|]. intros key e He Hh.
  exists (Coverage.report_of e). rewrite report_endpoints_fmap, lookup_fmap, He.
  split; [reflexivity|]. unfold Coverage.report_of. simpl.
  destruct (Z.ltb_spec 0 (hits e)) as [_|Hn]; [|lia].
  repeat split.
  - intros ->. apply percent2_all, Hh.
  - intros ->. apply percent2_none, Hh.
Qed.

(** ** Random choices *)



(** ** Iterations of the MQTT script *)



(** ** Iterations of the comprehensive script *)

(** A step that changes neither the books nor the requests sent nor the
    pauses. *)
Ltac still :=
  unfold progress; simpl;
  split; [auto|]; split; [lia|]; split; [lia|];
  split; [reflexivity
         |first [reflexivity | rewrite <- drop_1_tl; apply suffix_drop]].

Lemma progress_refl st : progress 0 0 st st.
Proof. still. Qed.

Lemma progress_trans a b c d st st1 st2 :
  progress a b st st1 -> progress c d st1 st2 ->
  progress (a + c) (b + d) st st2.
Proof.
  intros (A1 & H1 & S1 & P1 & R1) (A2 & H2 & S2 & P2 & R2).
  unfold progress. split; [auto|]. split; [lia|]. split; [lia|].
  split; [congruence|]. etrans; eassumption.
Qed.

Lemma progress_weaken a b a' b' st st' :
  a' <= a -> b <= b' -> progress a b st st' -> progress a' b' st st'.
Proof.
  intros Ha Hb (A & H & S & P & R). unfold progress.
  split; [exact A|]. split; [lia|]. auto.
Qed.

Lemma progress_errorRate_add v st :
  progress 0 0 st (Coverage.errorRate_add v st).
Proof. still. Qed.

Lemma progress_math_random st : progress 0 0 st (Coverage.math_random st).2.
Proof.
  unfold Coverage.math_random. still.
Qed.

Lemma progress_Date_now st :
  progress 0 0 st (Coverage.set_world st (Date_now (Coverage.world st)).2).
Proof. still. Qed.

Lemma tracked_request_counters key req check st :
  Coverage.successfulRequests (tracked_request key req check st).2
  + Coverage.failedRequests (tracked_request key req check st).2
  = Coverage.successfulRequests st + Coverage.failedRequests st
    + (if Coverage.has_endpoint st key then 1 else 0).
Proof.
  unfold tracked_request, Coverage.timed_request.
  cbn [Date_now http_request fst snd].
  rewrite successfulRequests_trackEndpoint, failedRequests_trackEndpoint.
  unfold Coverage.has_endpoint. simpl.
  destruct (Coverage.endpointCoverage st !! key); [|destruct (inherited key)];
    match goal with |- context [check ?r] => destruct (check r) end;
    simpl; lia.
Qed.

Lemma progress_tracked_request key req check st :
  key ∈ Coverage.declared_keys ->
  progress 1 1 st (tracked_request key req check st).2.
Proof.
  intros Hkey.
  destruct (tracked_request_step key req check st)
    as [_ (W & _ & H & rt & T & C)].
  pose proof (tracked_request_counters key req check st) as Hc.
  set (st2 := (tracked_request key req check st).2) in *. clearbody st2.
  unfold progress. rewrite W, H. unfold after_request.
  cbn [sent slept random]. rewrite length_app. cbn [length].
  split; [|split; [lia|split; [lia|split; reflexivity]]].
  intros (Hkeys & Hsum & Hcnt & Hlen).
  assert (Hsome : is_Some (Coverage.endpointCoverage st !! key))
    by apply Hkeys, Hkey.
  unfold accounted. rewrite C, T, H, Hc, length_app.
  unfold Coverage.has_endpoint. destruct Hsome as [e He]. rewrite He.
  split; [|split; [|split]].
  - intros j. rewrite <- Hkeys, lookup_alter.
    case_decide; [subst j; rewrite fmap_is_Some|]; reflexivity.
  - rewrite (sum_hits_alter _ _ _ _ He). simpl. lia.
  - lia.
  - simpl. lia.
Qed.

Ltac declared :=
  unfold Coverage.declared_keys; rewrite !elem_of_cons; tauto.

(** The progress made by the tracked step named by [T]. *)
Ltac step_progress T P :=
  match type of T with
  | tracked_request ?k ?r ?c ?s = _ =>
      pose proof (progress_tracked_request k r c s ltac:(declared)) as P;
      rewrite T in P; cbn [snd] in P
  end.

Lemma progress_recorded_request key req check st :
  key ∈ Coverage.declared_keys ->
  progress 1 1 st (recorded_request key req check st).2.
Proof.
  intros Hkey. unfold recorded_request.
  pose proof (progress_tracked_request key req check st Hkey) as P.
  destruct (tracked_request key req check st) as [ok st2]. cbn [snd] in P |- *.
  destruct ok; cbn [negb]; [exact P|].
  apply (progress_trans 1 1 0 0 _ _ _ P), progress_errorRate_add.
Qed.

Lemma progress_testHealthCheck st :
  progress 1 1 st (Coverage.testHealthCheck st).
Proof.
  change (Coverage.testHealthCheck st)
    with (recorded_request "GET /" (GET "/" (Some "health_check"))
            Coverage.check_health st).2.
  apply progress_recorded_request. declared.
Qed.

Lemma progress_testUserOperations st :
  progress 1 3 st (Coverage.testUserOperations st).
Proof.
  rewrite testUserOperations_steps.
  run_step st ok1 st2 T1. step_progress T1 P1.
  destruct ok1; cbn [negb].
  - pose proof (progress_math_random st2) as P2.
    destruct (Coverage.math_random st2) as [r st3]. cbn [snd] in P2.
    run_step st3 ok2 st5 T2. step_progress T2 P3.
    pose proof (progress_trans _ _ _ _ _ _ _
                  (progress_trans _ _ _ _ _ _ _ P1 P2) P3) as P5.
    destruct ok2; cbn [negb].
    + pose proof (progress_tracked_request "GET /user/users/:id"
                    (GET "/user/users/1" (Some "get_user_by_id"))
                    Coverage.check_get_user st5 ltac:(declared)) as P6.
      apply (progress_trans _ _ _ _ _ _ _ P5) in P6.
      apply (progress_weaken _ _ 1 3) in P6; [exact P6|lia|lia].
    + pose proof (progress_trans _ _ _ _ _ _ _ P5
                    (progress_errorRate_add 1 st5)) as P6.
      apply (progress_weaken _ _ 1 3) in P6; [exact P6|lia|lia].
  - pose proof (progress_trans _ _ _ _ _ _ _ P1
                  (progress_errorRate_add 1 st2)) as P2.
    apply (progress_weaken _ _ 1 3) in P2; [exact P2|lia|lia].
Qed.

Lemma progress_testMqttOperations st :
  progress 1 2 st (Coverage.testMqttOperations st).
Proof.
  change (Coverage.testMqttOperations st)
    with (let '(r, st1) := Coverage.math_random st in
          let '(ok, st3) :=
            tracked_request "POST /mqtt/pub"
              (POST "/mqtt/pub" (pick Coverage.testMessages r)
                 (Some "mqtt_publish"))
              Coverage.check_mqtt_publish st1 in
          if negb ok then Coverage.errorRate_add 1 st3
          else (recorded_request "GET /mqtt/consume"
                  (GET "/mqtt/consume" (Some "mqtt_consume"))
                  Coverage.check_mqtt_consume st3).2).
  pose proof (progress_math_random st) as P1.
  destruct (Coverage.math_random st) as [r st1]. cbn [snd] in P1.
  run_step st1 ok st3 T. step_progress T P2.
  pose proof (progress_trans _ _ _ _ _ _ _ P1 P2) as P3.
  destruct ok; cbn [negb].
  - pose proof (progress_recorded_request "GET /mqtt/consume"
                  (GET "/mqtt/consume" (Some "mqtt_consume"))
                  Coverage.check_mqtt_consume st3 ltac:(declared)) as P4.
    apply (progress_trans _ _ _ _ _ _ _ P3) in P4.
    apply (progress_weaken _ _ 1 2) in P4; [exact P4|lia|lia].
  - pose proof (progress_trans _ _ _ _ _ _ _ P3
                  (progress_errorRate_add 1 st3)) as P4.
    apply (progress_weaken _ _ 1 2) in P4; [exact P4|lia|lia].
Qed.

Lemma progress_testChannelOperations st :
  progress 1 1 st (Coverage.testChannelOperations st).
Proof.
  change (Coverage.testChannelOperations st)
    with (let '(r1, st1) := Coverage.math_random st in
          let '(r2, st2) := Coverage.math_random st1 in
          let '(_, w3) := Date_now (Coverage.world st2) in
          (recorded_request "POST /channel/pub"
             (POST "/channel/pub"
                (Some (ChannelData (random_index r1 100 + 1) (Some r2)))
                (Some "channel_publish"))
             Coverage.check_channel_publish
             (Coverage.set_world st2 w3)).2).
  pose proof (progress_math_random st) as P1.
  destruct (Coverage.math_random st) as [r1 st1]. cbn [snd] in P1.
  pose proof (progress_math_random st1) as P2.
  destruct (Coverage.math_random st1) as [r2 st2]. cbn [snd] in P2.
  pose proof (progress_Date_now st2) as P3.
  destruct (Date_now (Coverage.world st2)) as [t w3]. cbn [snd] in P3.
  pose proof (progress_trans _ _ _ _ _ _ _
                (progress_trans _ _ _ _ _ _ _ P1 P2) P3) as P4.
  match goal with
  | |- progress _ _ _ (recorded_request ?k ?r ?c ?s).2 =>
      pose proof (progress_recorded_request k r c s ltac:(declared)) as P5
  end.
  exact (progress_trans _ _ _ _ _ _ _ P4 P5).
Qed.

Lemma progress_run_scenario s st :
  progress 1 3 st (Coverage.run_scenario s st).
Proof.
  destruct s; simpl.
  - apply (progress_weaken 1 1); [lia|lia|apply progress_testHealthCheck].
  - apply progress_testUserOperations.
  - apply (progress_weaken 1 2); [lia|lia|apply progress_testMqttOperations].
  - apply (progress_weaken 1 1); [lia|lia|apply progress_testChannelOperations].
Qed.

Lemma default_iteration st :
  exists r : Q,
    (accounted st -> accounted (Coverage.default st))
    /\ 1 <= Coverage.endpointHits (Coverage.default st)
            - Coverage.endpointHits st <= 3
    /\ Z.of_nat (length (sent (Coverage.world (Coverage.default st))))
       - Z.of_nat (length (sent (Coverage.world st)))
       = Coverage.endpointHits (Coverage.default st)
         - Coverage.endpointHits st
    /\ slept (Coverage.world (Coverage.default st))
       = (slept (Coverage.world st)
            ++ [Js.add (Js.mul (Js.Fin r) (Js.Fin 2))
                  (Js.Fin (Js.literal 0.5))])%list
    /\ (r = 0%Q \/ r ∈ random (Coverage.world st))
    /\ random (Coverage.world (Coverage.default st))
       `suffix_of` random (Coverage.world st).
Proof.
  unfold Coverage.default.
  pose proof (progress_math_random st) as P1.
  destruct (Coverage.math_random st) as [ts st1]. cbn [snd] in P1.
  pose proof (progress_run_scenario (Coverage.select ts) st1) as P2.
  set (st2 := Coverage.run_scenario (Coverage.select ts) st1) in *.
  clearbody st2.
  destruct (progress_trans _ _ _ _ _ _ _ P1 P2) as (A & H & S & P & R).
  unfold Coverage.math_random. cbn [Math_random].
  exists (hd 0%Q (random (Coverage.world st2))).
  cbn [Coverage.world Coverage.set_world Coverage.endpointHits sleep sent
       slept random].
  split; [exact A|]. split; [lia|]. split; [lia|].
  split; [rewrite P; reflexivity|]. split.
  - destruct (random (Coverage.world st2)) as [|r l] eqn:E; [left; reflexivity|].
    right. simpl. apply (elem_of_suffix (r :: l)); [left|exact R].
  - etrans; [|exact R]. rewrite <- drop_1_tl. apply suffix_drop.
Qed.

Lemma accounted_init w : accounted (Coverage.init w).
Proof.
  split; [apply tracked_init|]. split; [reflexivity|].
  split; reflexivity.
Qed.

Lemma coverage_iterations_facts (n : nat) (w : World) :
  let st := Nat.iter n Coverage.default (Coverage.init w) in
  accounted st
  /\ Z.of_nat (length (sent (Coverage.world st)))
     = Z.of_nat (length (sent w)) + Coverage.endpointHits st
  /\ Z.of_nat n <= Coverage.endpointHits st <= 3 * Z.of_nat n
  /\ length (slept (Coverage.world st)) = (length (slept w) + n)%nat.
Proof.
  induction n as [|n IH].
  - simpl. split; [apply accounted_init|]. repeat split; lia.
  - change (Nat.iter (S n) Coverage.default (Coverage.init w))
      with (Coverage.default (Nat.iter n Coverage.default (Coverage.init w))).
    cbv zeta in IH |- *.
    set (st := Nat.iter n Coverage.default (Coverage.init w)) in *.
    destruct IH as (A & S & B & P).
    destruct (default_iteration st) as (r & A' & H' & S' & P' & _ & _).
    split; [apply A', A|]. split; [lia|]. split; [lia|].
    rewrite P', length_app, P. simpl. lia.
Qed.

(** X8.  After [n] iterations of the comprehensive script, started on the
    initial state: the global hit counter equals the sum of the
    per-endpoint hits, the sum of the success and failure counters, the
    number of samples of the response-time trend and the number of requests
    sent; each iteration made between one and three requests; and the
    virtual user paused once per iteration. *)
Theorem coverage_iterations_balance :
  forall (n : nat) (w : World),
    let st := Nat.iter n Coverage.default (Coverage.init w) in
    sum_hits (Coverage.endpointCoverage st) = Coverage.endpointHits st
    /\ Coverage.successfulRequests st + Coverage.failedRequests st
       = Coverage.endpointHits st
    /\ Z.of_nat (length (Coverage.endpointResponseTime st))
       = Coverage.endpointHits st
    /\ Z.of_nat (length (sent (Coverage.world st)))
       = Z.of_nat (length (sent w)) + Coverage.endpointHits st
    /\ Z.of_nat n <= Coverage.endpointHits st <= 3 * Z.of_nat n
    /\ length (slept (Coverage.world st)) = (length (slept w) + n)%nat.
Proof.
  intros n w st.
  destruct (coverage_iterations_facts n w)
    as ((_ & Hsum & Hcnt & Hlen) & S & B & P).
  fold st in Hsum, Hcnt, Hlen, S, B, P.
  repeat split; try assumption; lia.
Qed.

(** ** Pacing *)

Lemma hd_unit_draw (l : list Q) : Forall unit_draw l -> unit_draw (hd 0%Q l).
Proof.
  intros H. destruct H as [|r l Hr _]; [|exact Hr].
  unfold unit_draw. simpl. split; [apply Qle_refl | reflexivity].
Qed.

Lemma suffix_unit_draws (l l' : list Q) :
  l' `suffix_of` l -> Forall unit_draw l -> Forall unit_draw l'.
Proof.
  intros Hs H. rewrite Forall_forall in *. intros r Hr.
  apply H. apply (elem_of_suffix l'); assumption.
Qed.

Lemma mqtt_default_pause (st : Mqtt.State) :
  slept (Mqtt.world (Mqtt.default st))
  = (slept (Mqtt.world st)
       ++ [Js.add (Js.mul (Js.Fin (hd 0%Q (tl (random (Mqtt.world st)))))
                     (Js.Fin 1))
             (Js.Fin (Js.literal 0.5))])%list
  /\ random (Mqtt.world (Mqtt.default st))
     = tl (tl (random (Mqtt.world st))).
Proof.
  unfold Mqtt.default, Mqtt.math_random.
  cbn [Math_random Date_now http_request Mqtt.world Mqtt.set_world
       Mqtt.mqttPublishResponseTime_add clock net random sent slept].
  match goal with
  | |- context [Mqtt.check_publish ?r] => destruct (Mqtt.check_publish r)
  end; split; reflexivity.
Qed.

Lemma basic_default_pause (st : Basic.State) :
  slept (Basic.world (Basic.default st))
  = (slept (Basic.world st) ++ [Js.Fin 1])%list.
Proof.
  unfold Basic.default, Basic.run_scenario, Basic.math_random.
  cbn [Math_random].
  match goal with |- context [Basic.select ?r] => destruct (Basic.select r) end;
    unfold Basic.testHealthCheck, Basic.testUserOperations,
      Basic.testMqttOperations, Basic.testChannelOperations,
      Basic.request, Basic.math_random;
    cbn [Math_random http_request Date_now Basic.world Basic.set_world];
    repeat match goal with
           | |- context [negb ?b] => destruct b; cbn [negb]
           end;
    reflexivity.
Qed.

Lemma pause_within_weaken (lo hi lo' hi' : Q) (pause : Js.Num) :
  (lo' <= lo)%Q -> (hi <= hi')%Q ->
  pause_within lo hi pause -> pause_within lo' hi' pause.
Proof.
  intros Hlo Hhi (seconds & -> & H1 & H2). exists seconds.
  split; [reflexivity|]. split; lra.
Qed.

(** X9.  When every draw of the random source lies in [0,1), the pause
    after each iteration lies between 0.5 and 2.5 seconds in the
    comprehensive script and between 0.5 and 1.5 seconds in the MQTT
    script, both bounds included; in the basic script it is one second
    whatever the draws.  Each script pauses exactly once per iteration.
    The upper bounds are reached: with the largest draw below 1 the sum is
    rounded to 2.5, and to 1.5. *)
Theorem pauses_within_range :
  forall (n : nat) (w : World),
    Forall unit_draw (random w) ->
    (exists pauses,
        slept (Coverage.world (Nat.iter n Coverage.default (Coverage.init w)))
        = (slept w ++ pauses)%list
        /\ length pauses = n /\ Forall (pause_within 0.5 2.5) pauses)
    /\ (exists pauses,
          slept (Mqtt.world (Nat.iter n Mqtt.default (Mqtt.init w)))
          = (slept w ++ pauses)%list
          /\ length pauses = n /\ Forall (pause_within 0.5 1.5) pauses)
    /\ slept (Basic.world (Nat.iter n Basic.default (Basic.init w)))
       = (slept w ++ replicate n (Js.Fin 1))%list
    /\ (Forall unit_draw (random longest_pause)
        /\ slept (Coverage.world
                    (Coverage.default (Coverage.init longest_pause)))
           = [Js.Fin (5 # 2)]
        /\ slept (Mqtt.world (Mqtt.default (Mqtt.init longest_pause)))
           = [Js.Fin (3 # 2)]).
Proof.
  intros n w Hw. split; [|split; [|split]].
  - assert (H : exists pauses,
               slept (Coverage.world
                        (Nat.iter n Coverage.default (Coverage.init w)))
               = (slept w ++ pauses)%list
               /\ length pauses = n /\ Forall (pause_within 0.5 2.5) pauses
               /\ random (Coverage.world
                            (Nat.iter n Coverage.default (Coverage.init w)))
                  `suffix_of` random w).
    { induction n as [|n IH].
      - exists []. simpl. rewrite app_nil_r.
        split; [reflexivity|split; [reflexivity|split; [constructor|done]]].
      - change (Nat.iter (S n) Coverage.default (Coverage.init w))
          with (Coverage.default
                  (Nat.iter n Coverage.default (Coverage.init w))).
        set (st := Nat.iter n Coverage.default (Coverage.init w)) in *.
        destruct IH as (pauses & Hs & Hl & Hp & Hr).
        destruct (default_iteration st) as (r & _ & _ & _ & Es & Er & Esuf).
        assert (Hu : unit_draw r).
        { destruct Er as [->|Hin].
          - split; [apply Qle_refl | reflexivity].
          - pose proof (suffix_unit_draws _ _ Hr Hw) as Hst.
            rewrite Forall_forall in Hst. apply Hst, Hin. }
        exists (pauses
                  ++ [Js.add (Js.mul (Js.Fin r) (Js.Fin 2))
                        (Js.Fin (Js.literal 0.5))])%list.
        rewrite Es, Hs, <- app_assoc, length_app. cbn [length].
        split; [reflexivity|]. split; [lia|]. split.
        + apply Forall_app. split; [exact Hp|]. constructor; [|constructor].
          apply (pause_within_weaken (1 # 2) (2 + (1 # 2)));
            [lra | lra |].
          apply pause_is_within;
            [exact Hu | lra | reflexivity | reflexivity | reflexivity].
        + etrans; eassumption. }
    destruct H as (pauses & ? & ? & ? & _). exists pauses. auto.
  - assert (H : exists pauses,
               slept (Mqtt.world (Nat.iter n Mqtt.default (Mqtt.init w)))
               = (slept w ++ pauses)%list
               /\ length pauses = n /\ Forall (pause_within 0.5 1.5) pauses
               /\ random (Mqtt.world (Nat.iter n Mqtt.default (Mqtt.init w)))
                  `suffix_of` random w).
    { induction n as [|n IH].
      - exists []. simpl. rewrite app_nil_r.
        split; [reflexivity|split; [reflexivity|split; [constructor|done]]].
      - change (Nat.iter (S n) Mqtt.default (Mqtt.init w))
          with (Mqtt.default (Nat.iter n Mqtt.default (Mqtt.init w))).
        set (st := Nat.iter n Mqtt.default (Mqtt.init w)) in *.
        destruct IH as (pauses & Hs & Hl & Hp & Hr).
        destruct (mqtt_default_pause st) as [Es Er].
        assert (Hsuf : tl (tl (random (Mqtt.world st)))
                       `suffix_of` random w).
        { etrans; [|exact Hr]. rewrite <- drop_2_tl. apply suffix_drop. }
        assert (Hu : unit_draw (hd 0%Q (tl (random (Mqtt.world st))))).
        { apply hd_unit_draw. apply (suffix_unit_draws (random w)); [|exact Hw].
          etrans; [|exact Hr]. rewrite <- drop_1_tl. apply suffix_drop. }
        eexists (pauses ++ [_])%list.
        rewrite Es, Er, Hs, <- app_assoc, length_app. cbn [length].
        split; [reflexivity|]. split; [lia|]. split; [|exact Hsuf].
        apply Forall_app. split; [exact Hp|]. constructor; [|constructor].
        apply (pause_within_weaken (1 # 2) (1 + (1 # 2)));
          [lra | lra |].
        apply pause_is_within;
          [exact Hu | lra | reflexivity | reflexivity | reflexivity]. }
    destruct H as (pauses & ? & ? & ? & _). exists pauses. auto.
  - induction n as [|n IH].
    + simpl. rewrite app_nil_r. reflexivity.
    + change (Nat.iter (S n) Basic.default (Basic.init w))
        with (Basic.default (Nat.iter n Basic.default (Basic.init w))).
      rewrite basic_default_pause, IH, <- app_assoc.
      f_equal. change [Js.Fin 1] with (replicate 1 (Js.Fin 1)).
      rewrite <- replicate_add. f_equal. lia.
  - split; [|split; vm_compute; reflexivity].
    repeat constructor; discriminate.
Qed.

(** ** A run that starts *)

Lemma declared_keys_size (cov : gmap string Entry) :
  (forall key, is_Some (cov !! key) <-> key ∈ Coverage.declared_keys) ->
  size cov = 7%nat.
Proof.
  intros Hkeys. rewrite <- (size_dom (D := gset string)).
  assert (E : dom cov = list_to_set Coverage.declared_keys).
  { apply set_eq. intros key.
    rewrite elem_of_dom, Hkeys, elem_of_list_to_set. reflexivity. }
  rewrite E, size_list_to_set; [reflexivity|].
  apply (bool_decide_unpack _). vm_compute. exact I.
Qed.

Lemma some_entry_hit (l : list (string * Entry)) :
  0 < foldr Z.add 0 (hits <$> l.*2) ->
  (1 <= length (filter (fun kv : string * Entry => (0 < hits kv.2)%Z) l))%nat.
Proof.
  induction l as [|kv l IH]; [simpl; lia|].
  rewrite !fmap_cons, filter_cons. cbn [foldr]. intros H.
  destruct (decide (0 < hits kv.2)); [simpl; lia|]. apply IH. lia.
Qed.

Lemma count_tested_bounds (cov : gmap string Entry) :
  (count_tested cov <= size cov)%nat
  /\ (0 < sum_hits cov -> (1 <= count_tested cov)%nat).
Proof.
  rewrite <- count_tested_list, <- (length_map_to_list cov). split.
  - apply length_filter.
  - apply some_entry_hit.
Qed.

Lemma teardown_totals setupData st :
  let r := Coverage.teardown setupData st in
  Coverage.td_totalEndpoints r.1
  = Z.of_nat (size (Coverage.endpointCoverage st))
  /\ Coverage.td_testedEndpoints r.1
     = Z.of_nat (count_tested (Coverage.endpointCoverage st))
  /\ r.2 = Coverage.set_world st (Coverage.world r.2)
  /\ sent (Coverage.world r.2) = sent (Coverage.world st)
  /\ slept (Coverage.world r.2) = slept (Coverage.world st).
Proof.
  cbv zeta. unfold Coverage.teardown. rewrite foldl_teardown_step.
  cbn [Date_now fst snd Coverage.td_totalEndpoints
       Coverage.td_testedEndpoints].
  rewrite count_tested_list, length_map_to_list. repeat split.
Qed.

(** X10.  When the reply to the reachability request has status 200, a run
    of the comprehensive script goes through: [setup] does not throw, the
    [n] iterations run and [teardown] returns its statistics.  These count
    the 7 declared endpoints, of which at least one is tested as soon as
    one iteration ran, and never more than 7; the run sent the
    reachability request and one request per tracked hit, between [n] and
    [3 n], and paused [n] times. *)
Theorem run_after_successful_setup :
  forall (n : nat) (w : World),
    status (coming_reply w 0) = 200 ->
    exists td st',
      run_test Coverage.setup Coverage.default Coverage.teardown n
        (Coverage.init w)
      = (inr td, st')
      /\ Coverage.td_totalEndpoints td = 7
      /\ Coverage.td_testedEndpoints td <= 7
      /\ ((1 <= n)%nat -> 1 <= Coverage.td_testedEndpoints td)
      /\ Z.of_nat n <= Coverage.endpointHits st' <= 3 * Z.of_nat n
      /\ Z.of_nat (length (sent (Coverage.world st')))
         = Z.of_nat (length (sent w)) + 1 + Coverage.endpointHits st'
      /\ length (slept (Coverage.world st')) = (length (slept w) + n)%nat.
Proof.
  intros n w Hok. unfold coming_reply in Hok. rewrite drop_0 in Hok.
  pose (w2 := (Date_now (probed w)).2).
  pose (setupData :=
          Coverage.mkSetupData true (hd 0 (clock w))
            (Coverage.keys (Coverage.init w))).
  assert (Hsetup : Coverage.setup (Coverage.init w)
                   = (inr setupData, Coverage.init w2)).
  { unfold Coverage.setup. cbn [http_request Coverage.world Coverage.init].
    rewrite Hok. reflexivity. }
  unfold run_test. rewrite Hsetup.
  destruct (coverage_iterations_facts n w2)
    as ((Hkeys & Hsum & _ & _) & S & B & P).
  set (st := Nat.iter n Coverage.default (Coverage.init w2)) in *.
  destruct (teardown_totals setupData st) as (Htot & Htest & Hst & Hsent & Hslept).
  destruct (Coverage.teardown setupData st) as [td st'].
  cbn [fst snd] in Htot, Htest, Hst, Hsent, Hslept.
  exists td, st'. split; [reflexivity|].
  pose proof (declared_keys_size _ Hkeys) as Hsize.
  destruct (count_tested_bounds (Coverage.endpointCoverage st)) as [Hle Hge].
  rewrite Htot, Htest, Hsize, Hsent, Hslept, Hst. cbn [Coverage.endpointHits].
  subst w2. unfold probed in S, P. cbn [Date_now snd sent slept] in S, P.
  rewrite length_app in S. cbn [length] in S.
  rewrite Hsize in Hle. unfold Coverage.set_world.
  cbn [Coverage.endpointHits].
  split; [reflexivity|]. split; [lia|]. split; [|split; [lia|split; [lia|exact P]]].
  intros Hn. assert (0 < sum_hits (Coverage.endpointCoverage st)) by lia.
  specialize (Hge H). lia.
Qed.

(** ** The MQTT report on missing metrics *)

Lemma or_zero_toFixed2 (n : Js.Num) :
  Mqtt.or_zero (Js.toFixed2 n) = Js.FStr (Js.toFixed2 n).
Proof. unfold Mqtt.or_zero. rewrite toFixed2_nonempty. reflexivity. Qed.

(** X11.  In the MQTT report the [|| 0] fallbacks of the data-transfer
    sizes and of the error rate never apply, because [toFixed] always
    yields a non-empty string: these three fields are always strings.  A
    missing transfer count is shown as ["NaN"], a missing test duration as
    ["NaN"], and with no request at all the success rate is ["0"] while the
    error rate is ["NaN"]. *)
Theorem mqtt_report_on_missing_metrics :
  forall (data : SummaryData) (timestamp testDate : Z),
    let pd := Mqtt.performanceData data timestamp testDate in
    let transfer := Mqtt.dataTransfer (Mqtt.pd_metrics pd) in
    let errs := Mqtt.m_errors (Mqtt.pd_metrics pd) in
    (exists received sent rate,
        Mqtt.received transfer = Js.FStr received
        /\ Mqtt.dt_sent transfer = Js.FStr sent
        /\ Mqtt.rate errs = Js.FStr rate)
    /\ (metric_value data "data_received" "count" = None ->
        Mqtt.received transfer = Js.FStr "NaN")
    /\ (metric_value data "data_sent" "count" = None ->
        Mqtt.dt_sent transfer = Js.FStr "NaN")
    /\ (testRunDurationMs data = None ->
        Mqtt.duration (Mqtt.testInfo pd) = "NaN")
    /\ (Mqtt.httpReqs data = Js.Fin 0 ->
        Mqtt.httpReqFailed data = Js.Fin 0 ->
        Mqtt.successRate (Mqtt.testInfo pd) = "0"
        /\ Mqtt.rate errs = Js.FStr "NaN"
        /\ Mqtt.ti_successfulRequests (Mqtt.testInfo pd) = Js.Fin 0).
Proof.
  intros data timestamp testDate pd transfer errs.
  subst transfer errs pd. cbn [Mqtt.performanceData Mqtt.pd_metrics
    Mqtt.dataTransfer Mqtt.m_errors Mqtt.received Mqtt.dt_sent Mqtt.rate
    Mqtt.testInfo Mqtt.duration Mqtt.successRate Mqtt.ti_successfulRequests].
  rewrite !or_zero_toFixed2.
  split; [do 3 eexists; repeat split|]. split; [intros ->; reflexivity|].
  split; [intros ->; reflexivity|]. split; [intros ->; reflexivity|].
  intros Hr Hf. unfold Mqtt.httpSuccessRate. rewrite Hr, Hf.
  repeat split.
Qed.

(** ** The unrecorded failure *)

(** X12.  In [testUserOperations] a failed check of the first or of the
    second step adds a sample to the [errors] rate, but a failed check of
    the third step does not: it is counted in the [errors] field of the
    coverage entry of [GET /user/users/:id] and leaves the [errors] rate as
    it was. *)
Theorem third_user_step_failure_not_in_error_rate :
  forall (st : Coverage.State) (e : Entry),
    Coverage.endpointCoverage st !! "GET /user/users/:id" = Some e ->
    let w := Coverage.world st in
    let ok1 := Coverage.check_get_users (coming_reply w 0) in
    let ok2 := Coverage.check_create_user (coming_reply w 1) in
    let ok3 := Coverage.check_get_user (coming_reply w 2) in
    let st' := Coverage.testUserOperations st in
    (ok1 = false ->
     Coverage.errorRate st' = (Coverage.errorRate st ++ [1])%list)
    /\ (ok1 = true -> ok2 = false ->
        Coverage.errorRate st' = (Coverage.errorRate st ++ [1])%list)
    /\ (ok1 = true -> ok2 = true -> ok3 = false ->
        Coverage.errorRate st' = Coverage.errorRate st
        /\ exists e',
            Coverage.endpointCoverage st' !! "GET /user/users/:id" = Some e'
            /\ errors e' = errors e + 1
            /\ hits e' = hits e + 1).
Proof.
  intros st e He w ok1 ok2 ok3 st'.
  subst st'. rewrite testUserOperations_steps.
  destruct (tracked_request_step "GET /user/users"
              (GET "/user/users" (Some "get_users"))
              Coverage.check_get_users st) as [O1 S1].
  destruct (tracked_request _ _ _ st) as [o1 st2]. cbn [fst snd] in O1, S1.
  assert (o1 = ok1) as -> by exact O1. clear O1.
  destruct S1 as (W1 & E1 & _ & rt1 & _ & C1).
  destruct ok1 eqn:Ek1; cbn [negb].
  - split; [discriminate|].
    unfold Coverage.math_random. cbn [Math_random].
    set (st3 := Coverage.set_world st2 _).
    assert (W3 : net (Coverage.world st3) = tl (net w))
      by (subst st3; simpl; rewrite W1; reflexivity).
    match goal with
    | |- context [tracked_request ?k ?r ?c st3] =>
        destruct (tracked_request_step k r c st3) as [O2 S2];
        destruct (tracked_request k r c st3) as [o2 st5]
    end.
    cbn [fst snd] in O2, S2.
    assert (o2 = ok2) as ->.
    { rewrite O2. unfold ok2, coming_reply. rewrite W3, drop_0, drop_1_tl.
      reflexivity. }
    clear O2. destruct S2 as (W2 & E2 & _ & rt2 & _ & C2).
    destruct ok2 eqn:Ek2; cbn [negb].
    + split; [discriminate|]. intros _ _ Hk3.
      destruct (tracked_request_step "GET /user/users/:id"
                  (GET "/user/users/1" (Some "get_user_by_id"))
                  Coverage.check_get_user st5) as [O3 S3].
      destruct (tracked_request _ _ _ st5) as [o3 st6].
      cbn [fst snd] in O3, S3 |- *.
      assert (o3 = false) as ->.
      { rewrite O3, <- Hk3. unfold ok3, coming_reply.
        rewrite W2. unfold after_request. cbn [net].
        rewrite W3, drop_0, drop_2_tl. reflexivity. }
      destruct S3 as (_ & E3 & _ & rt3 & _ & C3).
      split; [rewrite E3, E2; subst st3; simpl; exact E1|].
      exists (bump false rt3 e). rewrite C3, lookup_alter_eq, C2.
      rewrite lookup_alter_ne by discriminate.
      replace (Coverage.endpointCoverage st3)
        with (Coverage.endpointCoverage st2) by (subst st3; reflexivity).
      rewrite C1, lookup_alter_ne by discriminate. rewrite He.
      repeat split.
    + split; [|discriminate]. intros _ _. simpl.
      rewrite E2. subst st3. simpl. rewrite E1. reflexivity.
  - split; [|split; discriminate]. intros _. simpl. rewrite E1. reflexivity.
Qed.

(** ** The basic script: what an iteration sends and records *)

Lemma basic_default_step (st : Basic.State) :
  exists k : nat,
    (1 <= k <= 3)%nat
    /\ length (sent (Basic.world (Basic.default st)))
       = (length (sent (Basic.world st)) + k)%nat
    /\ net (Basic.world (Basic.default st)) = drop k (net (Basic.world st))
    /\ (length (Basic.errorRate (Basic.default st))
        <= length (Basic.errorRate st) + 1)%nat.
Proof.
  unfold Basic.default, Basic.run_scenario, Basic.math_random.
  cbn [Math_random].
  match goal with |- context [Basic.select ?r] => destruct (Basic.select r) end;
    unfold Basic.testHealthCheck, Basic.testUserOperations,
      Basic.testMqttOperations, Basic.testChannelOperations,
      Basic.request, Basic.math_random;
    cbn [Math_random http_request Date_now Basic.world Basic.set_world];
    repeat match goal with
           | |- context [negb ?b] => destruct b; cbn [negb]
           end;
    cbn [Basic.errorRate_add Basic.errorRate Basic.world Basic.set_world
         sleep sent net];
    rewrite ?length_app; cbn [length];
    first [ exists 1%nat; rewrite drop_1_tl;
            split; [lia|split; [lia|split; [reflexivity|lia]]]
          | exists 2%nat; rewrite drop_2_tl;
            split; [lia|split; [lia|split; [reflexivity|lia]]]
          | exists 3%nat; rewrite <- (drop_drop _ 2 1), drop_2_tl, drop_1_tl;
            split; [lia|split; [lia|split; [reflexivity|lia]]] ].
Qed.

(** X13.  In the basic script every iteration sends at least one and at
    most three requests, consumes exactly one reply per request sent, and
    adds at most one sample to the [errors] rate, however many of its
    checks failed: after [n] iterations between [n] and [3 n] requests went
    out and the rate holds at most [n] samples. *)
Theorem basic_iterations_bounds :
  forall (n : nat) (w : World),
    let st := Nat.iter n Basic.default (Basic.init w) in
    exists k : nat,
      (n <= k <= 3 * n)%nat
      /\ length (sent (Basic.world st)) = (length (sent w) + k)%nat
      /\ net (Basic.world st) = drop k (net w)
      /\ (length (Basic.errorRate st) <= n)%nat.
Proof.
  intros n w. cbv zeta. induction n as [|n IH].
  - exists 0%nat. simpl. rewrite drop_0.
    split; [lia|split; [lia|split; [reflexivity|lia]]].
  - change (Nat.iter (S n) Basic.default (Basic.init w))
      with (Basic.default (Nat.iter n Basic.default (Basic.init w))).
    set (st := Nat.iter n Basic.default (Basic.init w)) in *.
    destruct IH as (k & Hk & Hs & Hn & He).
    destruct (basic_default_step st) as (j & Hj & Hs' & Hn' & He').
    exists (k + j)%nat. rewrite Hs', Hn', Hs, Hn, drop_drop.
    split; [lia|split; [lia|split; [reflexivity|lia]]].
Qed.

(** ** Instances of the further properties *)

Lemma run_calls_order_independent_witness :
  sample_calls ≡ₚ reverse sample_calls
  /\ Coverage.endpointCoverage (run_calls sample_calls (Coverage.init quiet))
     = Coverage.endpointCoverage
         (run_calls (reverse sample_calls) (Coverage.init quiet)).
Proof.
  assert (H : sample_calls ≡ₚ reverse sample_calls)
    by (symmetry; apply reverse_Permutation).
  split; [exact H|].
  exact (proj1 (run_calls_order_independent (Coverage.init quiet)
                  sample_calls (reverse sample_calls) H)).
Defined.


Lemma pauses_within_range_witness :
  Forall unit_draw (random failing_create)
  /\ exists pauses,
      slept (Coverage.world
               (Nat.iter 2 Coverage.default (Coverage.init failing_create)))
      = (slept failing_create ++ pauses)%list
      /\ length pauses = 2%nat /\ Forall (pause_within 0.5 2.5) pauses.
Proof.
  assert (H : Forall unit_draw (random failing_create)).
  { repeat constructor. unfold Qle. simpl. lia. }
  split; [exact H|].
  exact (proj1 (pauses_within_range 2 failing_create H)).
Defined.

Lemma run_after_successful_setup_witness :
  status (coming_reply failing_create 0) = 200
  /\ exists td st',
      run_test Coverage.setup Coverage.default Coverage.teardown 1
        (Coverage.init failing_create)
      = (inr td, st')
      /\ Coverage.td_totalEndpoints td = 7.
Proof.
  assert (H : status (coming_reply failing_create 0) = 200) by reflexivity.
  split; [exact H|].
  destruct (run_after_successful_setup 1 failing_create H)
    as (td & st' & Hrun & Htotal & _).
  exists td, st'. split; [exact Hrun | exact Htotal].
Defined.

Lemma third_user_step_failure_not_in_error_rate_witness :
  Coverage.endpointCoverage (Coverage.init slow_lookup)
    !! "GET /user/users/:id" = Some entry0
  /\ Coverage.errorRate
       (Coverage.testUserOperations (Coverage.init slow_lookup))
     = Coverage.errorRate (Coverage.init slow_lookup).
Proof.
  assert (H : Coverage.endpointCoverage (Coverage.init slow_lookup)
                !! "GET /user/users/:id" = Some entry0) by reflexivity.
  split; [exact H|].
  exact (proj1 (proj2 (proj2
           (third_user_step_failure_not_in_error_rate
              (Coverage.init slow_lookup) entry0 H))
           eq_refl eq_refl eq_refl)).
Defined.
